(** * Bitcoin price projection near the all-time high: a shallow embedding

    The Python sources [technical_analysis.py], [data_helper.py] and
    [main.py] are embedded as Rocq functions, and the statements of the
    natural-language specification are settled against them.

    Modelling conventions.
    - A pandas/numpy float64 is a [cell]: not-a-number, the two infinities, or
      a finite value carried as an exact rational.  Arithmetic on finite
      values is exact (no rounding, no overflow, one unsigned zero); the
      special values follow IEEE 754 ([x/0], [inf-inf], [0*inf], ...).
      The literals [0.05] and [0.1] are the rationals 1/20 and 1/10.
      Statements about computed values therefore relate them through the
      operations of the code ([cadd], [cmul], ...) or through orderings that
      rounding preserves; what depends on the rounding of each operation is
      settled on binary64 numbers in [Float64].
    - A datetime is an integer count of microseconds since 1970-01-01 00:00;
      [timedelta.days] is the floor of a difference divided by one day.
      Datetimes are not bounded here; pandas holds those from 1677-09-21 to
      2262-04-11 ([Spec.representable]).
    - A DataFrame is a timestamp column and named float columns of equal
      length, labelled 0..N-1; a raised Python exception is a [Raise].
      The feature lists of the two projections select float columns: the
      name [timestamp] as a feature, and a feature listed twice (for which
      pandas hands back a Series in place of a number), are outside the
      model. *)

From Stdlib Require Import ZArith QArith String DecimalString List Bool Arith Lia Lqa.
From Stdlib Require Floats.
Import ListNotations.

Local Open Scope Q_scope.

(** ** Floating-point cells *)

Module Float.

Inductive cell : Type :=
| NaN
| PInf
| NInf
| Fin (q : Q).

Definition isna (c : cell) : bool :=
  match c with NaN => true | _ => false end.

Definition notna (c : cell) : bool := negb (isna c).

(** Sign of a cell against zero; [Eq] for zero (and, unused, for NaN). *)
Definition csign (c : cell) : comparison :=
  match c with
  | NaN => Eq
  | PInf => Gt
  | NInf => Lt
  | Fin q => q ?= 0
  end.

Definition sign_mul (s t : comparison) : comparison :=
  match s, t with
  | Eq, _ | _, Eq => Eq
  | Gt, u => u
  | Lt, Gt => Lt
  | Lt, Lt => Gt
  end.

(** The infinity of a given sign; a zero sign is the invalid operation. *)
Definition inf_of_sign (s : comparison) : cell :=
  match s with Gt => PInf | Lt => NInf | Eq => NaN end.

Definition cneg (a : cell) : cell :=
  match a with
  | NaN => NaN
  | PInf => NInf
  | NInf => PInf
  | Fin x => Fin (- x)
  end.

Definition cadd (a b : cell) : cell :=
  match a, b with
  | NaN, _ | _, NaN => NaN
  | PInf, NInf | NInf, PInf => NaN
  | PInf, _ | _, PInf => PInf
  | NInf, _ | _, NInf => NInf
  | Fin x, Fin y => Fin (x + y)
  end.

Definition csub (a b : cell) : cell := cadd a (cneg b).

Definition cmul (a b : cell) : cell :=
  match a, b with
  | NaN, _ | _, NaN => NaN
  | Fin x, Fin y => Fin (x * y)
  | _, _ => inf_of_sign (sign_mul (csign a) (csign b))
  end.

(** Division: a finite value over zero is an infinity of the sign of the
    numerator, and 0/0 is NaN. *)
Definition cdiv (a b : cell) : cell :=
  match a, b with
  | NaN, _ | _, NaN => NaN
  | Fin x, Fin y => if Qeq_bool y 0 then inf_of_sign (x ?= 0) else Fin (x / y)
  | Fin _, _ => Fin 0
  | _, Fin y => inf_of_sign (sign_mul (csign a) (if Qeq_bool y 0 then Gt else y ?= 0))
  | _, _ => NaN
  end.

(** Comparisons: false as soon as one side is NaN. *)
Definition ccompare (a b : cell) : option comparison :=
  match a, b with
  | NaN, _ | _, NaN => None
  | PInf, PInf | NInf, NInf => Some Eq
  | PInf, _ | _, NInf => Some Gt
  | NInf, _ | _, PInf => Some Lt
  | Fin x, Fin y => Some (x ?= y)
  end.

Definition cgt (a b : cell) : bool :=
  match ccompare a b with Some Gt => true | _ => false end.

Definition clt (a b : cell) : bool :=
  match ccompare a b with Some Lt => true | _ => false end.

Definition cge (a b : cell) : bool :=
  match ccompare a b with Some Gt | Some Eq => true | _ => false end.

(** Equality of cells as numbers: rationals are compared by value. *)
Definition ceq (a b : cell) : Prop :=
  match a, b with
  | NaN, NaN | PInf, PInf | NInf, NInf => True
  | Fin x, Fin y => x == y
  | _, _ => False
  end.

End Float.

(** ** The fragment of pandas the program uses *)

Module Pandas.
Import Float.

(** Python exceptions the modelled calls can raise. *)
Inductive exn : Type :=
| KeyError
| IndexError
| ValueError
| IndexingError
| OutOfBoundsDatetime.

Inductive result (A : Type) : Type :=
| Ok (a : A)
| Raise (e : exn).

Arguments Ok {A} a.
Arguments Raise {A} e.

Definition bind {A B : Type} (m : result A) (f : A -> result B) : result B :=
  match m with
  | Ok a => f a
  | Raise e => Raise e
  end.

Notation "x <- m ;; k" := (bind m (fun x => k))
  (at level 61, m at next level, right associativity).

(** One day, in microseconds. *)
Definition usec_per_day : Z := 86400000000.

(** [timedelta.days]: whole days, rounded towards minus infinity. *)
Definition timedelta_days (delta : Z) : Z := (delta / usec_per_day)%Z.

(** *** Series (positional) *)

(** [s.shift(k)]: k missing values in front, the tail cut off. *)
Definition shift (k : nat) (l : list cell) : list cell :=
  firstn (length l) (repeat NaN k ++ l).

(** [s.diff()] is [s - s.shift(1)]. *)
Definition diff (l : list cell) : list cell :=
  map (fun p => csub (fst p) (snd p)) (combine l (shift 1 l)).

(** [s.pct_change()] is [s / s.shift(1) - 1] (no missing value to pad in the
    series it is applied to here). *)
Definition pct_change (l : list cell) : list cell :=
  map (fun p => csub (cdiv (fst p) (snd p)) (Fin 1)) (combine l (shift 1 l)).

Definition csum (l : list cell) : cell := fold_left cadd l (Fin 0).

Definition cmean (l : list cell) : cell :=
  cdiv (csum l) (Fin (inject_Z (Z.of_nat (length l)))).

(** [s.mean()]: missing values skipped; NaN (0/0) when nothing is left. *)
Definition series_mean (l : list cell) : cell := cmean (filter notna l).

Definition cmax (a b : cell) : cell := if cgt b a then b else a.

(** [s.max()]: missing values skipped; NaN for an empty series. *)
Definition series_max (l : list cell) : cell :=
  match filter notna l with
  | [] => NaN
  | x :: xs => fold_left cmax xs x
  end.

(** [s.fillna(v)]. *)
Definition fillna (v : cell) (l : list cell) : list cell :=
  map (fun c => if isna c then v else c) l.

(** [s.iloc[-1]]. *)
Definition iloc_last {A : Type} (l : list A) : result A :=
  match l with
  | [] => Raise IndexError
  | x :: xs => Ok (last xs x)
  end.

(** The trailing window of width [w] that ends at position [i]. *)
Definition window (w i : nat) (l : list cell) : list cell :=
  skipn (i + 1 - w) (firstn (i + 1) l).

(** [s.rolling(window=w).agg()]: defined where the window holds [w]
    observations, none of them missing. *)
Definition rolling (w : nat) (agg : list cell -> cell) (l : list cell) : list cell :=
  map (fun i => let win := window w i l in
                if (length win =? w)%nat && forallb notna win then agg win else NaN)
      (seq 0 (length l)).

Definition rolling_mean (w : nat) (l : list cell) : list cell := rolling w cmean l.

(** Sample variance (one degree of freedom removed). *)
Definition cvar (l : list cell) : cell :=
  let m := cmean l in
  cdiv (csum (map (fun x => cmul (csub x m) (csub x m)) l))
       (Fin (inject_Z (Z.of_nat (length l) - 1))).

Section Sqrt.

(** The square root as the floating-point unit rounds it, on non-negative
    finite values; nothing is assumed of it. *)
Variable fsqrt : Q -> Q.

Definition csqrt (c : cell) : cell :=
  match c with
  | NaN | NInf => NaN
  | PInf => PInf
  | Fin q => match q ?= 0 with Lt => NaN | _ => Fin (fsqrt q) end
  end.

Definition cstd (l : list cell) : cell := csqrt (cvar l).

Definition rolling_std (w : nat) (l : list cell) : list cell := rolling w cstd l.

End Sqrt.

(** *** Series with labels, as left by [dropna] *)

Definition enumerate {A : Type} (l : list A) : list (nat * A) :=
  combine (seq 0 (length l)) l.

Definition dropna (s : list (nat * cell)) : list (nat * cell) :=
  filter (fun p => notna (snd p)) s.

(** [s[mask]] with a boolean Series: the mask is aligned on the labels of
    [s]; a label the mask does not have is an error. *)
Fixpoint getitem_mask (s : list (nat * cell)) (mask : list bool)
  : result (list (nat * cell)) :=
  match s with
  | [] => Ok []
  | (lbl, v) :: rest =>
      match nth_error mask lbl with
      | None => Raise IndexingError
      | Some b =>
          rest' <- getitem_mask rest mask ;;
          Ok (if b then (lbl, v) :: rest' else rest')
      end
  end.

(** *** Tables *)

Fixpoint lookup (name : string) (cols : list (string * list cell)) : option (list cell) :=
  match cols with
  | [] => None
  | (k, c) :: rest => if String.eqb k name then Some c else lookup name rest
  end.

(** [df[name] = values] on the column list: overwrite, or append. *)
Fixpoint assign (name : string) (values : list cell) (cols : list (string * list cell))
  : list (string * list cell) :=
  match cols with
  | [] => [(name, values)]
  | (k, c) :: rest =>
      if String.eqb k name then (k, values) :: rest
      else (k, c) :: assign name values rest
  end.

(** The historical table: the [timestamp] column and the float columns. *)
Record DataFrame : Type := {
  timestamp : list Z;
  columns : list (string * list cell)
}.

Definition column (df : DataFrame) (name : string) : result (list cell) :=
  match lookup name (columns df) with
  | Some c => Ok c
  | None => Raise KeyError
  end.

Definition set_column (df : DataFrame) (name : string) (values : list cell) : DataFrame :=
  {| timestamp := timestamp df; columns := assign name values (columns df) |}.

Definition well_formed (df : DataFrame) : Prop :=
  Forall (fun kc => length (snd kc) = length (timestamp df)) (columns df).

Definition keep_rows {A : Type} (mask : list bool) (l : list A) : list A :=
  map snd (filter fst (combine mask l)).

Definition row_complete (cols : list (string * list cell)) (i : nat) : bool :=
  forallb (fun kc => notna (nth i (snd kc) NaN)) cols.

(** [df.dropna().reset_index(drop=True)]: rows with a missing value in any
    column go; the labels are positions again. *)
Definition dropna_rows (df : DataFrame) : DataFrame :=
  let mask := map (row_complete (columns df)) (seq 0 (length (timestamp df))) in
  {| timestamp := keep_rows mask (timestamp df);
     columns := map (fun kc => (fst kc, keep_rows mask (snd kc))) (columns df) |}.

Definition nrows (df : DataFrame) : nat := length (timestamp df).

(** [data[features].iloc[-1]]: the last value of each requested column.
    The columns looked up are the float columns: a name that is no column
    at all raises KeyError as in pandas, while the name [timestamp], a
    column of the real table, is not covered. *)
Fixpoint last_row (df : DataFrame) (features : list string)
  : result (list (string * cell)) :=
  match features with
  | [] => match timestamp df with [] => Raise IndexError | _ => Ok [] end
  | f :: rest =>
      c <- column df f ;;
      others <- last_row df rest ;;
      v <- iloc_last c ;;
      Ok ((f, v) :: others)
  end.

Fixpoint lookup_value (name : string) (row : list (string * cell)) : result cell :=
  match row with
  | [] => Raise KeyError
  | (k, v) :: rest => if String.eqb k name then Ok v else lookup_value name rest
  end.

(** [pd.date_range(start=s, periods=n)] at daily frequency; a negative
    number of periods is refused.  The dates are not bounded: pandas also
    refuses a range that leaves the datetimes it can hold. *)
Definition date_range (start periods : Z) : result (list Z) :=
  if (periods <? 0)%Z then Raise OutOfBoundsDatetime
  else Ok (map (fun i => (start + Z.of_nat i * usec_per_day)%Z) (seq 0 (Z.to_nat periods))).

(** The projected table: built on an index, columns added one by one. *)
Inductive Index : Type :=
| DatetimeIndex (stamps : list Z)
| RangeIndex (n : nat).

Definition index_length (ix : Index) : nat :=
  match ix with
  | DatetimeIndex l => length l
  | RangeIndex n => n
  end.

Record FutureFrame : Type := {
  index : Index;
  frame_columns : list (string * list cell)
}.

(** [pd.DataFrame(index=ix)]. *)
Definition new_frame (ix : Index) : FutureFrame := {| index := ix; frame_columns := [] |}.

(** [frame[name] = values] for a list: a frame whose index is empty takes
    the positions of a non-empty list as its index; otherwise the lengths
    must agree. *)
Definition setitem (fd : FutureFrame) (name : string) (values : list cell)
  : result FutureFrame :=
  if (index_length (index fd) =? 0)%nat && negb (length values =? 0)%nat then
    Ok {| index := RangeIndex (length values);
          frame_columns := assign name values
                    (map (fun kc => (fst kc, repeat NaN (length values))) (frame_columns fd)) |}
  else if (length values =? index_length (index fd))%nat then
    Ok {| index := index fd; frame_columns := assign name values (frame_columns fd) |}
  else Raise ValueError.

End Pandas.

(** ** technical_analysis.py *)

Module TechnicalAnalysis.
Import Float Pandas.

(** [np.where(delta > 0, delta, 0)] *)
Definition gain_of (delta : list cell) : list cell :=
  map (fun d => if cgt d (Fin 0) then d else Fin 0) delta.

(** [np.where(delta < 0, -delta, 0)] *)
Definition loss_of (delta : list cell) : list cell :=
  map (fun d => if clt d (Fin 0) then cneg d else Fin 0) delta.

Definition avg_gain (n : nat) (close : list cell) : list cell :=
  rolling_mean n (gain_of (diff close)).

Definition avg_loss (n : nat) (close : list cell) : list cell :=
  rolling_mean n (loss_of (diff close)).

(** [rs = avg_gain / avg_loss], element by element. *)
Definition rs (n : nat) (close : list cell) : list cell :=
  map (fun p => cdiv (fst p) (snd p)) (combine (avg_gain n close) (avg_loss n close)).

(** [100 - (100 / (1 + rs))] *)
Definition rsi_formula (r : cell) : cell :=
  csub (Fin 100) (cdiv (Fin 100) (cadd (Fin 1) r)).

(** The series returned: the formula on every bar, then [fillna(50)]. *)
Definition rsi_of_close (n : nat) (close : list cell) : list cell :=
  fillna (Fin 50) (map rsi_formula (rs n close)).

Definition relative_strength_idx (df : DataFrame) (n : nat) : result (list cell) :=
  close <- column df "close" ;;
  Ok (rsi_of_close n close).

End TechnicalAnalysis.

(** ** data_helper.py *)

Module DataHelper.
Import Float Pandas.

(** A [datetime(y, m, d)]: midnight of a calendar day. *)
Record civil : Type := { year : Z; month : Z; day : Z }.

(** Days from 1970-01-01 to a day of the proleptic Gregorian calendar. *)
Definition days_from_civil (d : civil) : Z :=
  (let y := if month d <=? 2 then year d - 1 else year d in
   let era := y / 400 in
   let yoe := y - era * 400 in
   let mp := if month d <=? 2 then month d + 9 else month d - 3 in
   let doy := (153 * mp + 2) / 5 + day d - 1 in
   let doe := yoe * 365 + yoe / 4 - yoe / 100 + doy in
   era * 146097 + doe - 719468)%Z.

Definition to_usec (d : civil) : Z := (days_from_civil d * usec_per_day)%Z.

Definition halving_dates : list civil :=
  [ {| year := 2012; month := 11; day := 28 |};
    {| year := 2016; month := 7; day := 9 |};
    {| year := 2020; month := 5; day := 11 |};
    {| year := 2024; month := 5; day := 12 |};
    {| year := 2028; month := 5; day := 12 |} ].

Fixpoint find_year (y : Z) (dates : list civil) : result civil :=
  match dates with
  | [] => Raise ValueError
  | d :: rest => if (year d =? y)%Z then Ok d else find_year y rest
  end.

Definition get_halving_date (y : Z) : result civil := find_year y halving_dates.

(** [max(past_halvings)] of a non-empty list, given as head and tail. *)
Definition latest (first : Z) (others : list Z) : Z := fold_left Z.max others first.

Definition days_since_last_halving (current_date : Z) : Z :=
  let past_halvings :=
    filter (fun h => (h <? current_date)%Z) (map to_usec halving_dates) in
  match past_halvings with
  | [] => 0%Z
  | h :: hs => timedelta_days (current_date - latest h hs)
  end.

(** [data['close'] > (all_time_high - threshold)], a boolean per bar. *)
Definition near_high_mask (close : list cell) : list bool :=
  let all_time_high := series_max close in
  let threshold := cmul all_time_high (Fin (5 # 100)) in
  map (fun c => cgt c (csub all_time_high threshold)) close.

(** The block both projections start with: the percentage changes, missing
    ones dropped, indexed by that mask. *)
Definition at_high_pct_changes (close : list cell) : result (list (nat * cell)) :=
  let pct_changes := dropna (enumerate (pct_change close)) in
  getitem_mask pct_changes (near_high_mask close).

Definition avg_pct_change_at_high (close : list cell) : result cell :=
  kept <- at_high_pct_changes close ;;
  Ok (series_mean (map snd kept)).

(** The inner loop: [steps] times, append the last value times [1 + avg]. *)
Fixpoint compound (v avg : cell) (steps : nat) : list cell :=
  match steps with
  | O => []
  | S k => let v' := cmul v (cadd (Fin 1) avg) in v' :: compound v' avg k
  end.

(** [future_values] after [for _ in range(1, days)]. *)
Definition future_values (last_value avg : cell) (days : Z) : list cell :=
  last_value :: compound last_value avg (Z.to_nat (days - 1)).

(** The loop over the features, each one a column of the new table.  The
    features are taken distinct: for a feature listed twice
    [last_values[feature]] is a Series in pandas, not a number. *)
Fixpoint fill_features (features : list string) (last_values : list (string * cell))
  (avg : cell) (days : Z) (future_data : FutureFrame) : result FutureFrame :=
  match features with
  | [] => Ok future_data
  | f :: rest =>
      v <- lookup_value f last_values ;;
      future_data' <- setitem future_data f (future_values v avg days) ;;
      fill_features rest last_values avg days future_data'
  end.

Definition generate_future_features (data : DataFrame) (features : list string)
  (days : Z) : result FutureFrame :=
  last_values <- last_row data features ;;
  close <- column data "close" ;;
  avg <- avg_pct_change_at_high close ;;
  last_ts <- iloc_last (timestamp data) ;;
  ix <- date_range (last_ts + usec_per_day) days ;;
  fill_features features last_values avg days (new_frame (DatetimeIndex ix)).

Definition generate_features_to_halving (data : DataFrame) (features : list string)
  : result FutureFrame :=
  last_known_date <- iloc_last (timestamp data) ;;
  last_values <- last_row data features ;;
  halving_date <- get_halving_date 2024 ;;
  let days_to_halving := timedelta_days (to_usec halving_date - last_known_date) in
  close <- column data "close" ;;
  avg <- avg_pct_change_at_high close ;;
  ix <- date_range (last_known_date + usec_per_day) days_to_halving ;;
  fill_features features last_values avg days_to_halving (new_frame (DatetimeIndex ix)).

End DataHelper.

(** ** main.py

    The script, from the table the loader returned to the values handed to
    the plot. *)

Module Main.
Import Float Pandas TechnicalAnalysis DataHelper.

(** One row of the loaded files. *)
Record bar : Type := {
  b_timestamp : Z;
  b_open : Q;
  b_high : Q;
  b_low : Q;
  b_close : Q;
  b_volume : Q
}.

(** The table [fetch_historical_data] returns for these rows. *)
Definition loaded (bars : list bar) : DataFrame :=
  {| timestamp := map b_timestamp bars;
     columns :=
       [ ("open"%string, map (fun b => Fin (b_open b)) bars);
         ("high"%string, map (fun b => Fin (b_high b)) bars);
         ("low"%string, map (fun b => Fin (b_low b)) bars);
         ("close"%string, map (fun b => Fin (b_close b)) bars);
         ("volume"%string, map (fun b => Fin (b_volume b)) bars) ] |}.

(** [365 * 7] *)
Definition horizon : Z := (365 * 7)%Z.

(** [btc_data['volatility'] = btc_data['high'] - btc_data['low']], or the
    script's own ValueError. *)
Definition add_volatility (btc_data : DataFrame) : result DataFrame :=
  match lookup "high" (columns btc_data), lookup "low" (columns btc_data) with
  | Some high, Some low =>
      Ok (set_column btc_data "volatility"
            (map (fun p => csub (fst p) (snd p)) (combine high low)))
  | _, _ => Raise ValueError
  end.

Definition add_days_since_halving (btc_data : DataFrame) : DataFrame :=
  set_column btc_data "days_since_halving"
    (map (fun t => Fin (inject_Z (days_since_last_halving t))) (timestamp btc_data)).

(** [[last_date + timedelta(days=i) for i in range(1, 365 * 7 + 1)]] *)
Definition future_dates_from (last_date : Z) : list Z :=
  map (fun i => (last_date + Z.of_nat i * usec_per_day)%Z) (seq 1 (Z.to_nat horizon)).

Definition near_ath_mask (close : list cell) : list bool :=
  let max_historical_price := series_max close in
  let threshold := cmul max_historical_price (Fin (5 # 100)) in
  map (fun c => cge c (csub max_historical_price threshold)) close.

Definition ath_average_volatility (close volatility : list cell) : cell :=
  series_mean (keep_rows (near_ath_mask close) volatility).

Definition increment_of (close volatility : list cell) : cell :=
  cmul (ath_average_volatility close volatility) (Fin (1 # 10)).

(** The loop of lines 102 to 106: [steps] times, append the last price plus
    the increment.  The loop is the same whatever the numbers are, so it is
    written over the addition: [cadd] in the table model below, the binary64
    addition of Python floats in [Float64]. *)
Section Loop.

Context {num : Type} (add : num -> num -> num).

Fixpoint extend (v inc : num) (steps : nat) : list num :=
  match steps with
  | O => []
  | S k => let v' := add v inc in v' :: extend v' inc k
  end.

Definition price_list (max_historical_price increment : num) : list num :=
  max_historical_price :: extend max_historical_price increment (Z.to_nat (horizon - 1)).

End Loop.

(** [pd.Series(values, index=ix)]: the lengths must agree. *)
Definition make_series (values : list cell) (ix : list Z) : result (list (Z * cell)) :=
  if (length values =? length ix)%nat then Ok (combine ix values) else Raise ValueError.

(** The projection part of the script (lines 82 to 111). *)
Record Projection : Type := {
  future_dates : list Z;
  increment : cell;
  estimated_future_prices : list (Z * cell);
  last_price : cell
}.

Definition project (btc_data : DataFrame) : result Projection :=
  last_date <- iloc_last (timestamp btc_data) ;;
  close <- column btc_data "close" ;;
  let max_historical_price := series_max close in
  volatility <- column btc_data "volatility" ;;
  let inc := increment_of close volatility in
  let prices := price_list cadd max_historical_price inc in
  ix <- date_range last_date horizon ;;
  series <- make_series prices ix ;;
  last <- iloc_last (map snd series) ;;
  Ok {| future_dates := future_dates_from last_date;
        increment := inc;
        estimated_future_prices := series;
        last_price := last |}.

Definition decimal (n : nat) : string := NilEmpty.string_of_uint (Nat.to_uint n).

(** What the script holds when it draws its last annotation (line 197). *)
Record Outcome : Type := {
  projection : Projection;
  final_table : DataFrame;
  current_price : cell;
  current_date : Z
}.

Section Indicators.

Variable fsqrt : Q -> Q.

(** [for lag in [1, 3, 7, 14, 30]: ...shift(lag)] *)
Fixpoint add_lags (lags : list nat) (btc_data : DataFrame) : result DataFrame :=
  match lags with
  | [] => Ok btc_data
  | lag :: rest =>
      close <- column btc_data "close" ;;
      add_lags rest (set_column btc_data ("lagged_close_" ++ decimal lag) (shift lag close))
  end.

(** [for window in [7, 14, 30]: rolling mean and rolling std of close] *)
Fixpoint add_rolling (windows : list nat) (btc_data : DataFrame) : result DataFrame :=
  match windows with
  | [] => Ok btc_data
  | w :: rest =>
      close <- column btc_data "close" ;;
      let with_mean :=
        set_column btc_data ("rolling_mean_" ++ decimal w) (rolling_mean w close) in
      close' <- column with_mean "close" ;;
      add_rolling rest
        (set_column with_mean ("rolling_std_" ++ decimal w) (rolling_std fsqrt w close'))
  end.

(** The technical-analysis part of the script (lines 119 to 135). *)
Definition enrich (btc_data : DataFrame) : result DataFrame :=
  open <- column btc_data "open" ;;
  let d1 := set_column btc_data "open_ma_7" (rolling_mean 7 open) in
  rsi <- relative_strength_idx d1 14 ;;
  let d2 := set_column d1 "rsi" rsi in
  d3 <- add_lags [1; 3; 7; 14; 30]%nat d2 ;;
  d4 <- add_rolling [7; 14; 30]%nat d3 ;;
  Ok (dropna_rows d4).

(** The whole script, from the loaded table to the two values read for the
    last annotation (lines 195 and 196).  The drawing calls in between take
    the values computed here and are not modelled. *)
Definition run (loaded_data : DataFrame) : result Outcome :=
  d0 <- add_volatility loaded_data ;;
  let d1 := add_days_since_halving d0 in
  p <- project d1 ;;
  final <- enrich d1 ;;
  close <- column final "close" ;;
  price <- iloc_last close ;;
  date <- iloc_last (timestamp final) ;;
  Ok {| projection := p;
        final_table := final;
        current_price := price;
        current_date := date |}.

End Indicators.

End Main.

(** ** The projection loop on Python floats

    The tables above compute with exact rationals.  What depends on the
    rounding of each addition is settled on binary64 numbers, the Python
    [float], with the operations of IEEE 754. *)

Module Float64.
Import PrimFloat.


Definition one_tenth : float := 0x1.999999999999ap-4%float.


(** Line 99. *)
Definition increment_of (ath_average_volatility : float) : float :=
  mul ath_average_volatility one_tenth.

(** Lines 102 to 106. *)
Definition estimated_future_prices (max_historical_price ath_average_volatility : float)
  : list float :=
  Main.price_list add max_historical_price (increment_of ath_average_volatility).








End Float64.

(** ** Vocabulary of the statements *)

Module Spec.
Import Float Pandas TechnicalAnalysis DataHelper Main.

(** A finite cell. *)
Definition finite (c : cell) : Prop :=
  match c with Fin _ => True | _ => False end.

(** A finite cell within bounds. *)
Definition in_range (lo hi : Q) (c : cell) : Prop :=
  match c with Fin q => lo <= q /\ q <= hi | _ => False end.

(** A finite, non-negative cell. *)
Definition nonneg (c : cell) : Prop :=
  match c with Fin q => 0 <= q | _ => False end.

(** A cell that is finite or plus infinity. *)
Definition above_minus_inf (c : cell) : Prop :=
  match c with Fin _ | PInf => True | _ => False end.

(** A close column without missing or infinite values. *)
Definition closes (qs : list Q) : list cell := map Fin qs.

(** Closing prices 1, 2, ..., n. *)
Definition rising (n : nat) : list Q :=
  map (fun i => inject_Z (Z.of_nat i)) (seq 1 n).

(** A table of daily bars, one per closing price, from 1970-01-01 on. *)
Definition daily_frame (qs : list Q) : DataFrame :=
  {| timestamp := map (fun i => (Z.of_nat i * usec_per_day)%Z) (seq 0 (length qs));
     columns := [("close"%string, closes qs)] |}.

(** The near-all-time-high band of the two projection strategies: a close
    strictly within 5% of the maximum close. *)
Definition in_band (close : list cell) (c : cell) : bool :=
  cgt c (csub (series_max close) (cmul (series_max close) (Fin (5 # 100)))).

(** Consecutive bars, as (earlier close, later close). *)
Definition bar_pairs (close : list cell) : list (cell * cell) :=
  combine close (tl close).

(** The percentage change over a pair of consecutive bars. *)
Definition change (p : cell * cell) : cell :=
  csub (cdiv (snd p) (fst p)) (Fin 1).

(** The specification's wording: the mean of the changes whose starting
    (earlier) bar is in the band. *)
Definition mean_change_from_band (close : list cell) : cell :=
  series_mean (map change (filter (fun p => in_band close (fst p)) (bar_pairs close))).

(** The same with the ending (later) bar in the band. *)
Definition mean_change_into_band (close : list cell) : cell :=
  series_mean (map change (filter (fun p => in_band close (snd p)) (bar_pairs close))).

(** Daily bars from a given first datetime on. *)
Definition frame_from (start : Z) (qs : list Q) : DataFrame :=
  {| timestamp := map (fun i => (start + Z.of_nat i * usec_per_day)%Z) (seq 0 (length qs));
     columns := [("close"%string, closes qs)] |}.

(** The last value of a column of the table (NaN for a column it lacks). *)
Definition last_of (df : DataFrame) (f : string) : cell :=
  match lookup f (columns df) with
  | Some c => last c NaN
  | None => NaN
  end.

(** The last row restricted to the requested features. *)
Definition last_values_of (df : DataFrame) (features : list string) : list (string * cell) :=
  map (fun f => (f, last_of df f)) features.

Definition halving_2024 : Z := to_usec {| year := 2024; month := 5; day := 12 |}.

(** The datetimes pandas holds: nanoseconds since 1970 in 64 bits, from
    1677-09-21 to 2262-04-11, here in whole microseconds. *)
Definition timestamp_max : Z := 9223372036854775.

Definition representable (t : Z) : Prop := (- timestamp_max <= t <= timestamp_max)%Z.



(** Two bars, 100 then 50, the second on 2024-05-09: no percentage change
    ends within 5% of the maximum. *)
Definition falling_frame : DataFrame :=
  frame_from (halving_2024 - 4 * usec_per_day) [100; 50].

(** Two bars, 100 then 110, the second on 2024-05-13, past the halving. *)
Definition frame_past_halving : DataFrame :=
  frame_from halving_2024 [100; 110].

(** The columns of a loaded table, from its rows. *)
Definition close_of (bars : list bar) : list cell := map (fun b => Fin (b_close b)) bars.

Definition volatility_of (bars : list bar) : list cell :=
  map (fun b => csub (Fin (b_high b)) (Fin (b_low b))) bars.

(** The table of the script just before [dropna], column by column. *)
Definition enriched_table (fsqrt : Q -> Q) (bars : list bar) : DataFrame :=
  let close := close_of bars in
  {| timestamp := map b_timestamp bars;
     columns :=
       [ ("open"%string, map (fun b => Fin (b_open b)) bars);
         ("high"%string, map (fun b => Fin (b_high b)) bars);
         ("low"%string, map (fun b => Fin (b_low b)) bars);
         ("close"%string, close);
         ("volume"%string, map (fun b => Fin (b_volume b)) bars);
         ("volatility"%string, volatility_of bars);
         ("days_since_halving"%string,
          map (fun t => Fin (inject_Z (days_since_last_halving t))) (map b_timestamp bars));
         ("open_ma_7"%string, rolling_mean 7 (map (fun b => Fin (b_open b)) bars));
         ("rsi"%string, rsi_of_close 14 close);
         ("lagged_close_1"%string, shift 1 close);
         ("lagged_close_3"%string, shift 3 close);
         ("lagged_close_7"%string, shift 7 close);
         ("lagged_close_14"%string, shift 14 close);
         ("lagged_close_30"%string, shift 30 close);
         ("rolling_mean_7"%string, rolling_mean 7 close);
         ("rolling_std_7"%string, rolling_std fsqrt 7 close);
         ("rolling_mean_14"%string, rolling_mean 14 close);
         ("rolling_std_14"%string, rolling_std fsqrt 14 close);
         ("rolling_mean_30"%string, rolling_mean 30 close);
         ("rolling_std_30"%string, rolling_std fsqrt 30 close) ] |}.

(** The first row at which each of these columns is defined. *)
Definition first_defined : list nat :=
  [0; 0; 0; 0; 0; 0; 0; 6; 0; 1; 3; 7; 14; 30; 6; 6; 13; 13; 29; 29]%nat.

(** A column of [n] values that is defined exactly from row [k] on. *)
Definition defined_from (n k : nat) (col : list cell) : Prop :=
  length col = n /\
  forall i, (i < n)%nat -> notna (nth i col NaN) = (k <=? i)%nat.

(** A bar on day [t] after 1970-01-01 closing at [c], high and low one
    unit above and below. *)
Definition bar_at (t : nat) (c : Q) : bar :=
  {| b_timestamp := (Z.of_nat t * usec_per_day)%Z;
     b_open := c; b_high := c + 1; b_low := c - 1; b_close := c; b_volume := 1 |}.

(** [n] daily bars closing at 1, 2, ..., n. *)
Definition rising_bars (n : nat) : list bar :=
  map (fun i => bar_at i (inject_Z (Z.of_nat (S i)))) (seq 0 n).

(** Closing prices n, n-1, ..., 1. *)
Definition falling (n : nat) : list Q := rev (rising n).

(** A table with a close column and no row. *)
Definition empty_frame : DataFrame :=
  {| timestamp := []; columns := [("close"%string, [])] |}.

(** A table with a row and no close column. *)
Definition frame_without_close : DataFrame :=
  {| timestamp := [0%Z]; columns := [("open"%string, [Fin 1])] |}.

(** Closes 100, 120, 110: the maximum is at the second bar. *)
Definition peak_in_the_middle : list Q := [100; 120; 110].

(** The reference dates as datetimes. *)
Definition halving_stamps : list Z := map to_usec halving_dates.

(** [h] is the latest reference date strictly before [d]. *)
Definition most_recent (h d : Z) : Prop :=
  In h halving_stamps /\ (h < d)%Z /\
  forall h', In h' halving_stamps -> (h' < d)%Z -> (h' <= h)%Z.

Definition earliest_halving : Z := to_usec {| year := 2012; month := 11; day := 28 |}.

(** 2020-05-11 00:00, 2020-05-11 12:00 and 2020-05-12 06:00. *)
Definition halving_2020 : Z := to_usec {| year := 2020; month := 5; day := 11 |}.

Definition noon_2020_05_11 : Z := (halving_2020 + 12 * 3600000000)%Z.

Definition morning_2020_05_12 : Z := (halving_2020 + 30 * 3600000000)%Z.

End Spec.

(** * Properties *)

Import Float Pandas TechnicalAnalysis DataHelper Main Spec.

(** ** Lists *)

Lemma nth_map_seq {A : Type} (f : nat -> A) (n i : nat) (d : A) :
  (i < n)%nat -> nth i (map f (seq 0 n)) d = f i.
Proof.
  intros Hi.
  rewrite (nth_indep _ d (f 0%nat)) by (rewrite length_map, length_seq; exact Hi).
  rewrite map_nth, seq_nth by exact Hi. reflexivity.
Qed.

Lemma nth_map_in {A B : Type} (f : A -> B) (l : list A) (i : nat) (d : B) (a : A) :
  (i < length l)%nat -> nth i (map f l) d = f (nth i l a).
Proof.
  intros Hi.
  rewrite (nth_indep _ d (f a)) by (rewrite length_map; exact Hi).
  apply map_nth.
Qed.

Lemma combine_firstn_r {A B : Type} (l : list A) (l' : list B) :
  combine l (firstn (length l) l') = combine l l'.
Proof.
  revert l'. induction l as [|a l IH]; intros [|b l']; simpl; try reflexivity.
  now rewrite IH.
Qed.

(** ** Cells *)

Lemma csum_acc_finite (l : list cell) (a : Q) :
  Forall nonneg l -> 0 <= a ->
  exists s, fold_left cadd l (Fin a) = Fin s /\ 0 <= s.
Proof.
  intros Hl. revert a. induction Hl as [|c l Hc _ IH]; intros a Ha; simpl.
  - exists a. split; [reflexivity | exact Ha].
  - destruct c as [| | | q]; try contradiction. simpl in Hc.
    apply IH. lra.
Qed.

Lemma csum_nonneg (l : list cell) :
  Forall nonneg l -> nonneg (csum l).
Proof.
  intros Hl. destruct (csum_acc_finite l 0 Hl) as [s [Hs Hpos]]; [lra|].
  unfold csum. rewrite Hs. exact Hpos.
Qed.

Lemma inject_nat_pos (n : nat) : (0 < n)%nat -> 0 < inject_Z (Z.of_nat n).
Proof.
  intros Hn. change 0 with (inject_Z 0). rewrite <- Zlt_Qlt. lia.
Qed.

Lemma Qeq_bool_pos (q : Q) : 0 < q -> Qeq_bool q 0 = false.
Proof.
  intros Hq. destruct (Qeq_bool q 0) eqn:E; [|reflexivity].
  apply Qeq_bool_eq in E. lra.
Qed.

Lemma cmean_nonneg (l : list cell) :
  l <> [] -> Forall nonneg l -> nonneg (cmean l).
Proof.
  intros Hne Hl. unfold cmean.
  pose proof (csum_nonneg l Hl) as Hs.
  destruct (csum l) as [| | | s]; try contradiction. simpl in Hs.
  assert (Hn : 0 < inject_Z (Z.of_nat (length l))).
  { apply inject_nat_pos. destruct l; [congruence | simpl; lia]. }
  simpl. rewrite (Qeq_bool_pos _ Hn). simpl.
  apply Qle_shift_div_l; [exact Hn | lra].
Qed.

Lemma in_firstn {A : Type} (n : nat) (l : list A) (x : A) :
  In x (firstn n l) -> In x l.
Proof.
  intros H. rewrite <- (firstn_skipn n l). apply in_or_app. now left.
Qed.

Lemma in_skipn {A : Type} (n : nat) (l : list A) (x : A) :
  In x (skipn n l) -> In x l.
Proof.
  intros H. rewrite <- (firstn_skipn n l). apply in_or_app. now right.
Qed.

(** ** The relative strength index *)

Lemma shift_one_incl (l : list cell) (c : cell) :
  In c (shift 1 l) -> c = NaN \/ In c l.
Proof.
  unfold shift. intros Hin. apply in_firstn in Hin.
  simpl in Hin. destruct Hin as [H | H]; [left; now symmetry | now right].
Qed.

Lemma diff_closes (qs : list Q) :
  Forall (fun d => d = NaN \/ finite d) (diff (closes qs)).
Proof.
  apply Forall_forall. intros d Hd. unfold diff in Hd.
  apply in_map_iff in Hd. destruct Hd as [[a b] [Hd Hin]]. simpl in Hd. subst d.
  pose proof (in_combine_l _ _ _ _ Hin) as Ha.
  pose proof (in_combine_r _ _ _ _ Hin) as Hb.
  unfold closes in Ha. apply in_map_iff in Ha. destruct Ha as [x [Hx _]]. subst a.
  apply shift_one_incl in Hb. destruct Hb as [Hb | Hb].
  - subst b. now left.
  - unfold closes in Hb. apply in_map_iff in Hb. destruct Hb as [y [Hy _]]. subst b.
    right. exact I.
Qed.

Lemma gain_of_nonneg (delta : list cell) :
  Forall (fun d => d = NaN \/ finite d) delta -> Forall nonneg (gain_of delta).
Proof.
  intros H. unfold gain_of. apply Forall_map. revert H. apply Forall_impl.
  intros d [Hd | Hd].
  - subst d. simpl. lra.
  - destruct d as [| | | q]; try contradiction.
    unfold cgt, ccompare. destruct (q ?= 0) eqn:E; simpl; try lra.
    apply Qgt_alt in E. lra.
Qed.

Lemma loss_of_nonneg (delta : list cell) :
  Forall (fun d => d = NaN \/ finite d) delta -> Forall nonneg (loss_of delta).
Proof.
  intros H. unfold loss_of. apply Forall_map. revert H. apply Forall_impl.
  intros d [Hd | Hd].
  - subst d. simpl. lra.
  - destruct d as [| | | q]; try contradiction.
    unfold clt, ccompare. destruct (q ?= 0) eqn:E; simpl; try lra.
    apply Qlt_alt in E. lra.
Qed.

Lemma window_forall (P : cell -> Prop) (w i : nat) (l : list cell) :
  Forall P l -> Forall P (window w i l).
Proof.
  intros H. unfold window. apply Forall_forall. intros c Hc.
  apply (proj1 (Forall_forall P l) H).
  eapply in_firstn. eapply in_skipn. exact Hc.
Qed.

Lemma rolling_mean_nonneg (w : nat) (l : list cell) :
  Forall nonneg l -> Forall (fun c => c = NaN \/ nonneg c) (rolling_mean w l).
Proof.
  intros Hl. unfold rolling_mean, rolling. apply Forall_map.
  apply Forall_forall. intros i _. cbv zeta.
  destruct ((length (window w i l) =? w)%nat && forallb notna (window w i l));
    [|now left].
  destruct (window w i l) as [|c win] eqn:E.
  - left. reflexivity.
  - right. apply cmean_nonneg; [discriminate|].
    rewrite <- E. now apply window_forall.
Qed.

Lemma cdiv_nonneg (a b : cell) :
  (a = NaN \/ nonneg a) -> (b = NaN \/ nonneg b) ->
  cdiv a b = NaN \/ cdiv a b = PInf \/ nonneg (cdiv a b).
Proof.
  intros [Ha | Ha] [Hb | Hb]; subst; try (now left).
  - destruct a; now left.
  - destruct a as [| | | x], b as [| | | y]; try contradiction.
    simpl in Ha, Hb. simpl.
    destruct (Qeq_bool y 0) eqn:Ey.
    + destruct (x ?= 0) eqn:Ex; simpl; auto.
      apply Qlt_alt in Ex. lra.
    + right; right. simpl.
      assert (Hy : 0 < y).
      { apply Qeq_bool_neq in Ey. destruct (Qlt_le_dec 0 y); [assumption|].
        exfalso. apply Ey. lra. }
      apply Qle_shift_div_l; [exact Hy | lra].
Qed.

Lemma rsi_formula_range (r : cell) :
  r = NaN \/ r = PInf \/ nonneg r ->
  in_range 0 100 (if isna (rsi_formula r) then Fin 50 else rsi_formula r).
Proof.
  intros [Hr | [Hr | Hr]]; subst; simpl; try lra.
  destruct r as [| | | q]; try contradiction. simpl in Hr.
  unfold rsi_formula. simpl.
  assert (Hq : 0 < 1 + q) by lra.
  rewrite (Qeq_bool_pos _ Hq). simpl.
  assert (H1 : 0 <= 100 / (1 + q)) by (apply Qle_shift_div_l; [exact Hq | lra]).
  assert (H2 : 100 / (1 + q) <= 100) by (apply Qle_shift_div_r; [exact Hq | nra]).
  lra.
Qed.

Lemma length_shift (k : nat) (l : list cell) : length (shift k l) = length l.
Proof.
  unfold shift. rewrite length_firstn, length_app, repeat_length. lia.
Qed.

Lemma length_diff (l : list cell) : length (diff l) = length l.
Proof.
  unfold diff. rewrite length_map, length_combine, length_shift. lia.
Qed.

Lemma length_rolling (w : nat) (agg : list cell -> cell) (l : list cell) :
  length (rolling w agg l) = length l.
Proof.
  unfold rolling. now rewrite length_map, length_seq.
Qed.

Lemma length_avg_gain (n : nat) (close : list cell) :
  length (avg_gain n close) = length close.
Proof.
  unfold avg_gain, rolling_mean, gain_of.
  now rewrite length_rolling, length_map, length_diff.
Qed.

Lemma length_avg_loss (n : nat) (close : list cell) :
  length (avg_loss n close) = length close.
Proof.
  unfold avg_loss, rolling_mean, loss_of.
  now rewrite length_rolling, length_map, length_diff.
Qed.

Lemma length_rs (n : nat) (close : list cell) : length (rs n close) = length close.
Proof.
  unfold rs. rewrite length_map, length_combine, length_avg_gain, length_avg_loss. lia.
Qed.

Lemma length_rsi_of_close (n : nat) (close : list cell) :
  length (rsi_of_close n close) = length close.
Proof.
  unfold rsi_of_close, fillna. now rewrite !length_map, length_rs.
Qed.

Lemma rs_cases (n : nat) (qs : list Q) :
  Forall (fun r => r = NaN \/ r = PInf \/ nonneg r) (rs n (closes qs)).
Proof.
  apply Forall_forall. intros r Hr. unfold rs in Hr.
  apply in_map_iff in Hr. destruct Hr as [[a b] [Hr Hin]]. simpl in Hr. subst r.
  pose proof (in_combine_l _ _ _ _ Hin) as Ha.
  pose proof (in_combine_r _ _ _ _ Hin) as Hb.
  apply cdiv_nonneg.
  - apply (proj1 (Forall_forall _ _)
             (rolling_mean_nonneg n _ (gain_of_nonneg _ (diff_closes qs))) a Ha).
  - apply (proj1 (Forall_forall _ _)
             (rolling_mean_nonneg n _ (loss_of_nonneg _ (diff_closes qs))) b Hb).
Qed.

Lemma rsi_of_close_range (n : nat) (qs : list Q) :
  Forall (in_range 0 100) (rsi_of_close n (closes qs)).
Proof.
  unfold rsi_of_close, fillna. apply Forall_map, Forall_map.
  generalize (rs_cases n qs). apply Forall_impl.
  intros r Hr. now apply rsi_formula_range.
Qed.

(** Position by position: the value of a rolling aggregate. *)
Lemma nth_rolling (w : nat) (agg : list cell -> cell) (l : list cell) (i : nat) :
  (i < length l)%nat ->
  nth i (rolling w agg l) NaN =
  if (length (window w i l) =? w)%nat && forallb notna (window w i l)
  then agg (window w i l) else NaN.
Proof.
  intros Hi. unfold rolling. now rewrite nth_map_seq.
Qed.

Lemma length_window (w i : nat) (l : list cell) :
  (i < length l)%nat -> length (window w i l) = Nat.min w (i + 1).
Proof.
  intros Hi. unfold window. rewrite length_skipn, length_firstn. lia.
Qed.

Lemma nth_rolling_early (w : nat) (agg : list cell -> cell) (l : list cell) (i : nat) :
  (i < length l)%nat -> (i + 1 < w)%nat -> nth i (rolling w agg l) NaN = NaN.
Proof.
  intros Hi Hw. rewrite nth_rolling by exact Hi.
  rewrite length_window by exact Hi.
  replace (Nat.min w (i + 1) =? w)%nat with false; [reflexivity|].
  symmetry. apply Nat.eqb_neq. lia.
Qed.

Lemma forallb_notna_nonneg (l : list cell) : Forall nonneg l -> forallb notna l = true.
Proof.
  intros H. apply forallb_forall. intros c Hc.
  apply (proj1 (Forall_forall _ _) H) in Hc. destruct c; simpl in *; tauto.
Qed.

Lemma nth_rolling_mean_full (w : nat) (l : list cell) (i : nat) :
  Forall nonneg l -> (i < length l)%nat -> (0 < w <= i + 1)%nat ->
  exists m, nth i (rolling_mean w l) NaN = Fin m /\ 0 <= m.
Proof.
  intros Hl Hi Hw. unfold rolling_mean. rewrite nth_rolling by exact Hi.
  pose proof (length_window w i l Hi) as Hlen.
  pose proof (window_forall nonneg w i l Hl) as Hwin.
  rewrite Hlen. replace (Nat.min w (i + 1) =? w)%nat with true
    by (symmetry; apply Nat.eqb_eq; lia).
  rewrite (forallb_notna_nonneg _ Hwin). simpl.
  assert (Hne : window w i l <> []).
  { intros E. rewrite E in Hlen. simpl in Hlen. lia. }
  pose proof (cmean_nonneg _ Hne Hwin) as Hm.
  destruct (cmean (window w i l)) as [| | | m]; try contradiction.
  exists m. split; [reflexivity | exact Hm].
Qed.

Lemma nth_rsi_of_close (n : nat) (close : list cell) (i : nat) :
  (i < length close)%nat ->
  nth i (rsi_of_close n close) NaN =
  let r := rsi_formula (cdiv (nth i (avg_gain n close) NaN) (nth i (avg_loss n close) NaN)) in
  if isna r then Fin 50 else r.
Proof.
  intros Hi.
  assert (E : nth i (map rsi_formula (rs n close)) NaN =
              rsi_formula (cdiv (nth i (avg_gain n close) NaN)
                                (nth i (avg_loss n close) NaN))).
  { rewrite (nth_map_in _ _ i NaN NaN) by (now rewrite length_rs).
    f_equal. unfold rs.
    rewrite (nth_map_in _ _ i NaN (NaN, NaN))
      by (rewrite length_combine, length_avg_gain, length_avg_loss; lia).
    rewrite combine_nth by (now rewrite length_avg_gain, length_avg_loss).
    reflexivity. }
  unfold rsi_of_close, fillna.
  rewrite (nth_map_in _ _ i NaN NaN) by (now rewrite length_map, length_rs).
  rewrite E. reflexivity.
Qed.

(** C9. For a close column of finite prices and any window [n] (14 by
    default), [relative_strength_idx] returns one value per bar and every one
    of them is a finite number in the closed interval [0, 100]. *)
Theorem rsi_within_0_100 (df : DataFrame) (qs : list Q) (n i : nat) :
  column df "close" = Ok (closes qs) ->
  (i < length qs)%nat ->
  exists rsi, relative_strength_idx df n = Ok rsi /\
              length rsi = length qs /\
              in_range 0 100 (nth i rsi NaN).
Proof.
  intros Hclose Hi. unfold relative_strength_idx. rewrite Hclose. simpl.
  exists (rsi_of_close n (closes qs)).
  assert (Hlen : length (rsi_of_close n (closes qs)) = length qs).
  { rewrite length_rsi_of_close. unfold closes. apply length_map. }
  split; [reflexivity|]. split; [exact Hlen|].
  apply (proj1 (Forall_nth _ _) (rsi_of_close_range n qs)). lia.
Qed.

Lemma rsi_within_0_100_witness :
  exists rsi, relative_strength_idx (daily_frame (rising 15)) 14 = Ok rsi /\
              length rsi = length (rising 15) /\
              in_range 0 100 (nth 13 rsi NaN).
Proof.
  apply (rsi_within_0_100 (daily_frame (rising 15)) (rising 15) 14 13).
  - reflexivity.
  - simpl. lia.
Defined.

(** C1, as the specification has it, fails: on fifteen daily closes 1, 2, ...,
    15 the fourteenth bar has a complete window whose average loss is 0, and
    its RSI is 100, not 50. *)
Lemma rsi_rising_prices_is_100 :
  ceq (nth 13 (avg_loss 14 (closes (rising 15))) NaN) (Fin 0) /\
  exists rsi, relative_strength_idx (daily_frame (rising 15)) 14 = Ok rsi /\
              ceq (nth 13 rsi NaN) (Fin 100).
Proof.
  split.
  - vm_compute. reflexivity.
  - eexists. split; [reflexivity|]. vm_compute. reflexivity.
Qed.

(** C1, amended. The first 13 bars (incomplete window) have RSI 50.  On a bar
    with a complete 14-bar window whose average loss is 0, the RSI is 50 when
    the average gain is 0 as well (0/0 is NaN, which [fillna] replaces), and
    100 when the average gain is positive (the quotient is +inf). *)
Theorem rsi_when_average_loss_is_zero (df : DataFrame) (qs : list Q) (i : nat) :
  column df "close" = Ok (closes qs) ->
  (i < length qs)%nat ->
  exists rsi, relative_strength_idx df 14 = Ok rsi /\
    ((i < 13)%nat -> nth i rsi NaN = Fin 50) /\
    ((13 <= i)%nat ->
     ceq (nth i (avg_loss 14 (closes qs)) NaN) (Fin 0) ->
     exists g, nth i (avg_gain 14 (closes qs)) NaN = Fin g /\ 0 <= g /\
               ceq (nth i rsi NaN) (if Qeq_bool g 0 then Fin 50 else Fin 100)).
Proof.
  intros Hclose Hi. unfold relative_strength_idx. rewrite Hclose. simpl.
  exists (rsi_of_close 14 (closes qs)).
  assert (Hlen : (i < length (closes qs))%nat) by (unfold closes; now rewrite length_map).
  split; [reflexivity|]. split.
  - intros Hearly. rewrite nth_rsi_of_close by exact Hlen.
    unfold avg_loss, rolling_mean.
    rewrite (nth_rolling_early 14 cmean (loss_of (diff (closes qs))) i)
      by (unfold loss_of; rewrite ?length_map, ?length_diff; lia).
    destruct (nth i (avg_gain 14 (closes qs)) NaN); reflexivity.
  - intros Hfull Hloss.
    destruct (nth_rolling_mean_full 14 (gain_of (diff (closes qs))) i) as [g [Hg Hpos]].
    + apply gain_of_nonneg, diff_closes.
    + unfold gain_of. now rewrite length_map, length_diff.
    + lia.
    + exists g. fold (avg_gain 14 (closes qs)) in Hg.
      split; [exact Hg|]. split; [exact Hpos|].
      rewrite nth_rsi_of_close by exact Hlen. rewrite Hg.
      destruct (nth i (avg_loss 14 (closes qs)) NaN) as [| | | l]; try contradiction.
      simpl in Hloss. cbv zeta. unfold cdiv.
      rewrite (proj2 (Qeq_bool_iff l 0) Hloss).
      destruct (Qeq_bool g 0) eqn:Eg.
      * apply Qeq_bool_eq in Eg. rewrite (proj1 (Qeq_alt g 0) Eg). simpl. reflexivity.
      * apply Qeq_bool_neq in Eg.
        assert (Hgt : (g ?= 0) = Gt) by (apply Qgt_alt; lra).
        rewrite Hgt. simpl. lra.
Qed.

Lemma rsi_when_average_loss_is_zero_witness :
  exists rsi, relative_strength_idx (daily_frame (rising 15)) 14 = Ok rsi /\
    ((13 < 13)%nat -> nth 13 rsi NaN = Fin 50) /\
    ((13 <= 13)%nat ->
     ceq (nth 13 (avg_loss 14 (closes (rising 15))) NaN) (Fin 0) ->
     exists g, nth 13 (avg_gain 14 (closes (rising 15))) NaN = Fin g /\ 0 <= g /\
               ceq (nth 13 rsi NaN) (if Qeq_bool g 0 then Fin 50 else Fin 100)).
Proof.
  apply (rsi_when_average_loss_is_zero (daily_frame (rising 15)) (rising 15) 13).
  - reflexivity.
  - simpl. lia.
Defined.

(** ** The halving calendar *)

Lemma halving_stamps_eq :
  halving_stamps =
  [1354060800000000; 1468022400000000; 1589155200000000;
   1715472000000000; 1841702400000000]%Z.
Proof. reflexivity. Qed.

Lemma latest_spec (others : list Z) (first : Z) :
  In (latest first others) (first :: others) /\
  forall x, In x (first :: others) -> (x <= latest first others)%Z.
Proof.
  unfold latest. revert first.
  induction others as [|y ys IH]; intros first; simpl.
  - split; [now left|]. intros x [Hx | []]. lia.
  - destruct (IH (Z.max first y)) as [Hin Hmax]. split.
    + destruct Hin as [Hin | Hin].
      * rewrite <- Hin.
        destruct (Z.max_spec first y) as [[_ E] | [_ E]]; rewrite E; auto.
      * right. right. exact Hin.
    + intros x Hx.
      assert (Hle : (x <= Z.max first y)%Z \/ In x ys).
      { destruct Hx as [Hx | [Hx | Hx]]; [left; lia | left; lia | now right]. }
      destruct Hle as [Hle | Hin'].
      * specialize (Hmax (Z.max first y) (or_introl eq_refl)). lia.
      * apply Hmax. now right.
Qed.

Lemma days_since_most_recent (h d : Z) :
  most_recent h d -> days_since_last_halving d = timedelta_days (d - h).
Proof.
  intros [Hin [Hlt Hmax]]. unfold days_since_last_halving.
  fold halving_stamps.
  assert (Hpast : In h (filter (fun x => (x <? d)%Z) halving_stamps)).
  { apply filter_In. split; [exact Hin | now apply Z.ltb_lt]. }
  destruct (filter (fun x => (x <? d)%Z) halving_stamps) as [|p ps] eqn:E;
    [contradiction|].
  destruct (latest_spec ps p) as [Hmem Hub].
  assert (Hm : In (latest p ps) halving_stamps /\ (latest p ps < d)%Z).
  { rewrite <- E in Hmem. apply filter_In in Hmem.
    destruct Hmem as [H1 H2]. split; [exact H1 | now apply Z.ltb_lt]. }
  destruct Hm as [Hm1 Hm2].
  pose proof (Hmax _ Hm1 Hm2) as Hle.
  pose proof (Hub _ Hpast) as Hge.
  replace (latest p ps) with h by lia. reflexivity.
Qed.

Lemma halving_stamp_midnight (h : Z) :
  In h halving_stamps -> (h mod usec_per_day = 0)%Z.
Proof.
  unfold halving_stamps. intros Hin. apply in_map_iff in Hin.
  destruct Hin as [c [Hc _]]. subst h. unfold to_usec. apply Z.mod_mul.
  unfold usec_per_day. lia.
Qed.

(** C8, as the specification has it, fails for datetimes that carry a time of
    day: 2020-05-11 12:00 and 2020-05-12 06:00 both follow the 2020 halving
    (and precede the next); the day counts are 0 and 1, but the two
    datetimes are only 18 hours (0 whole days) apart. *)
Lemma days_since_halving_not_additive :
  most_recent halving_2020 noon_2020_05_11 /\
  most_recent halving_2020 morning_2020_05_12 /\
  (noon_2020_05_11 < morning_2020_05_12)%Z /\
  (days_since_last_halving morning_2020_05_12
   - days_since_last_halving noon_2020_05_11 = 1)%Z /\
  timedelta_days (morning_2020_05_12 - noon_2020_05_11) = 0%Z.
Proof.
  assert (H : forall d, (halving_2020 < d)%Z -> (d < 1715472000000000)%Z ->
                        most_recent halving_2020 d).
  { intros d H1 H2. unfold most_recent. rewrite halving_stamps_eq.
    split; [simpl; tauto|]. split; [exact H1|].
    change halving_2020 with 1589155200000000%Z in *.
    intros h' Hin Hlt. simpl in Hin.
    destruct Hin as [E | [E | [E | [E | [E | []]]]]]; subst h'; lia. }
  split; [apply H; vm_compute; reflexivity|].
  split; [apply H; vm_compute; reflexivity|].
  repeat split; vm_compute; reflexivity.
Qed.

(** C8, amended. [days_since_last_halving d] is 0 for every datetime at or
    before the earliest reference date.  For datetimes d1 < d2 with the same
    latest reference date strictly before them, the two counts differ by the
    whole-day count of d2 - d1 provided d1 is a midnight datetime or d2 - d1
    is a whole number of days. *)
Theorem days_since_last_halving_spec :
  (forall d, (d <= earliest_halving)%Z -> days_since_last_halving d = 0%Z) /\
  (forall h d1 d2,
      most_recent h d1 -> most_recent h d2 -> (d1 < d2)%Z ->
      ((d1 mod usec_per_day = 0)%Z \/ ((d2 - d1) mod usec_per_day = 0)%Z) ->
      (days_since_last_halving d2 - days_since_last_halving d1
       = timedelta_days (d2 - d1))%Z).
Proof.
  split.
  - intros d Hd. unfold days_since_last_halving. fold halving_stamps.
    rewrite halving_stamps_eq.
    change earliest_halving with 1354060800000000%Z in Hd.
    simpl.
    repeat match goal with
           | |- context [(?a <? d)%Z] =>
               let E := fresh in destruct (Z.ltb_spec a d) as [E | E]; [lia|]
           end.
    reflexivity.
  - intros h d1 d2 H1 H2 Hlt Hal.
    rewrite (days_since_most_recent h d1 H1), (days_since_most_recent h d2 H2).
    pose proof (halving_stamp_midnight h (proj1 H1)) as Hh.
    unfold timedelta_days.
    assert (HD : (0 < usec_per_day)%Z) by (unfold usec_per_day; lia).
    generalize dependent usec_per_day. intros D Hal Hh HD.
    apply Z.mod_divide in Hh; [|lia]. destruct Hh as [kh Hh].
    destruct Hal as [Hal | Hal]; apply Z.mod_divide in Hal; try lia;
      destruct Hal as [k Hk].
    + replace (d2 - h)%Z with ((d2 - d1) + (k - kh) * D)%Z by lia.
      replace (d1 - h)%Z with (0 + (k - kh) * D)%Z by lia.
      rewrite !Z.div_add by lia. rewrite Z.div_0_l by lia. lia.
    + replace (d2 - h)%Z with ((d1 - h) + k * D)%Z by lia.
      rewrite Hk. rewrite Z.div_add by lia. rewrite Z.div_mul by lia. lia.
Qed.

Lemma days_since_last_halving_spec_witness :
  days_since_last_halving earliest_halving = 0%Z /\
  (days_since_last_halving (halving_2020 + 3 * usec_per_day)
   - days_since_last_halving (halving_2020 + 1 * usec_per_day)
   = timedelta_days ((halving_2020 + 3 * usec_per_day)
                     - (halving_2020 + 1 * usec_per_day)))%Z.
Proof.
  assert (H : forall d, (halving_2020 < d)%Z -> (d < 1715472000000000)%Z ->
                        most_recent halving_2020 d).
  { intros d H1 H2. unfold most_recent. rewrite halving_stamps_eq.
    split; [simpl; tauto|]. split; [exact H1|].
    change halving_2020 with 1589155200000000%Z in *.
    intros h' Hin Hlt. simpl in Hin.
    destruct Hin as [E | [E | [E | [E | [E | []]]]]]; subst h'; lia. }
  split.
  - apply (proj1 days_since_last_halving_spec). vm_compute. discriminate.
  - apply (proj2 days_since_last_halving_spec halving_2020).
    + apply H; vm_compute; reflexivity.
    + apply H; vm_compute; reflexivity.
    + vm_compute. reflexivity.
    + left. vm_compute. reflexivity.
Defined.

(** ** Percentage changes near the all-time high *)

Lemma getitem_mask_ok (s : list (nat * cell)) (mask : list bool) :
  (forall p, In p s -> (fst p < length mask)%nat) ->
  getitem_mask s mask = Ok (filter (fun p => nth (fst p) mask false) s).
Proof.
  induction s as [|[lbl v] rest IH]; intros Hlbl; simpl; [reflexivity|].
  assert (Hlt : (lbl < length mask)%nat) by (apply (Hlbl (lbl, v)); now left).
  destruct (nth_error mask lbl) as [b|] eqn:E.
  - rewrite (nth_error_nth _ _ false E).
    rewrite IH by (intros p Hp; apply Hlbl; now right).
    simpl. reflexivity.
  - apply nth_error_None in E. lia.
Qed.

Lemma enumerate_label {A : Type} (l : list A) (p : nat * A) :
  In p (enumerate l) -> (fst p < length l)%nat.
Proof.
  destruct p as [i x]. unfold enumerate. intros Hin.
  apply in_combine_l in Hin. apply in_seq in Hin. simpl. lia.
Qed.

Lemma length_pct_change (l : list cell) : length (pct_change l) = length l.
Proof.
  unfold pct_change. rewrite length_map, length_combine, length_shift. lia.
Qed.

Lemma length_near_high_mask (close : list cell) :
  length (near_high_mask close) = length close.
Proof. unfold near_high_mask. apply length_map. Qed.

Lemma at_high_pct_changes_ok (close : list cell) :
  at_high_pct_changes close =
  Ok (filter (fun p => nth (fst p) (near_high_mask close) false)
             (dropna (enumerate (pct_change close)))).
Proof.
  unfold at_high_pct_changes. apply getitem_mask_ok.
  intros p Hp. unfold dropna in Hp. apply filter_In in Hp. destruct Hp as [Hp _].
  apply enumerate_label in Hp.
  now rewrite length_near_high_mask, <- (length_pct_change close).
Qed.

(** Selecting by a mask looked up by label is selecting by position. *)
Lemma filter_by_label {A : Type} (xs : list A) :
  forall (bs pre : list bool),
    length bs = length xs ->
    map snd (filter (fun p => nth (fst p) (pre ++ bs) false)
                    (combine (seq (length pre) (length xs)) xs))
    = keep_rows bs xs.
Proof.
  induction xs as [|x xs IH]; intros bs pre Hlen.
  - destruct bs; reflexivity.
  - destruct bs as [|b bs]; [discriminate|]. simpl in Hlen.
    simpl. rewrite app_nth2 by lia. rewrite Nat.sub_diag. simpl.
    specialize (IH bs (pre ++ [b])).
    rewrite <- app_assoc, length_app in IH. simpl in IH.
    rewrite Nat.add_1_r in IH. unfold keep_rows in *. simpl.
    destruct b; simpl; rewrite IH by lia; reflexivity.
Qed.

Lemma filter_comm {A : Type} (f g : A -> bool) (l : list A) :
  filter f (filter g l) = filter g (filter f l).
Proof.
  induction l as [|a l IH]; simpl; [reflexivity|].
  destruct (f a) eqn:Ef, (g a) eqn:Eg; simpl; rewrite ?Ef, ?Eg, IH; reflexivity.
Qed.

Lemma map_snd_filter {A : Type} (f : cell -> bool) (l : list (A * cell)) :
  map snd (filter (fun p => f (snd p)) l) = filter f (map snd l).
Proof.
  induction l as [|a l IH]; simpl; [reflexivity|].
  destruct (f (snd a)); simpl; now rewrite IH.
Qed.

Lemma filter_idem {A : Type} (f : A -> bool) (l : list A) :
  filter f (filter f l) = filter f l.
Proof.
  induction l as [|a l IH]; simpl; [reflexivity|].
  destruct (f a) eqn:E; simpl; rewrite ?E, IH; reflexivity.
Qed.

(** The values that survive, position by position. *)
Lemma kept_values_by_position (close : list cell) :
  exists kept, at_high_pct_changes close = Ok kept /\
               map snd kept
               = filter notna (keep_rows (near_high_mask close) (pct_change close)).
Proof.
  eexists. split; [apply at_high_pct_changes_ok|].
  unfold dropna. rewrite filter_comm.
  rewrite (map_snd_filter notna). f_equal.
  unfold enumerate.
  apply (filter_by_label (pct_change close) (near_high_mask close) []).
  now rewrite length_near_high_mask, length_pct_change.
Qed.

Lemma pct_change_cons (c0 : cell) (rest : list cell) :
  pct_change (c0 :: rest)
  = NaN :: map (fun p => csub (cdiv (fst p) (snd p)) (Fin 1)) (combine rest (c0 :: rest)).
Proof.
  unfold pct_change, shift. rewrite combine_firstn_r. simpl.
  destruct c0; reflexivity.
Qed.

(** Later bar against earlier bar is the change over the pair. *)
Lemma keep_rows_changes (b : cell -> bool) (rest : list cell) :
  forall c0,
    keep_rows (map b rest)
              (map (fun p => csub (cdiv (fst p) (snd p)) (Fin 1)) (combine rest (c0 :: rest)))
    = map change (filter (fun p => b (snd p)) (combine (c0 :: rest) rest)).
Proof.
  unfold keep_rows.
  induction rest as [|c1 rest IH]; intros c0; [reflexivity|].
  simpl. destruct (b c1); simpl; rewrite IH; reflexivity.
Qed.

Lemma near_high_mask_in_band (close : list cell) :
  near_high_mask close = map (in_band close) close.
Proof. reflexivity. Qed.

(** The surviving values are the changes over the pairs of consecutive bars
    whose later bar is in the band, missing ones dropped. *)
Lemma kept_values_by_pair (close : list cell) :
  exists kept, at_high_pct_changes close = Ok kept /\
               map snd kept
               = filter notna
                   (map change (filter (fun p => in_band close (snd p)) (bar_pairs close))).
Proof.
  destruct (kept_values_by_position close) as [kept [Hk Hv]].
  exists kept. split; [exact Hk|]. rewrite Hv. rewrite near_high_mask_in_band.
  unfold bar_pairs. generalize (in_band close). intros b.
  destruct close as [|c0 rest]; [reflexivity|].
  rewrite pct_change_cons. simpl tl. rewrite <- keep_rows_changes.
  unfold keep_rows. simpl. destruct (b c0); reflexivity.
Qed.

Lemma series_mean_filter (l : list cell) :
  series_mean (filter notna l) = series_mean l.
Proof. unfold series_mean. now rewrite filter_idem. Qed.

(** C3, as the specification has it, fails: on the closes 100, 50, 100 only
    the first and last bar are within 5% of the maximum; the code averages
    the change that ends in the band (+100%), the specification the change
    that starts in it (-50%). *)
Lemma at_high_average_uses_ending_bar :
  exists avg, avg_pct_change_at_high (closes [100; 50; 100]) = Ok avg /\
              ceq avg (Fin 1) /\
              ceq (mean_change_from_band (closes [100; 50; 100])) (Fin (- (1 # 2))).
Proof.
  eexists. split; [reflexivity|]. split; vm_compute; reflexivity.
Qed.

(** C3, amended. In both projection strategies [avg_pct_change_at_high] is
    the average of exactly those period-over-period percentage changes of
    close whose ending bar (the later bar of the pair) has a close strictly
    within 5% of the maximum close. *)
Theorem avg_pct_change_at_high_is_mean_into_band (qs : list Q) :
  avg_pct_change_at_high (closes qs) = Ok (mean_change_into_band (closes qs)).
Proof.
  unfold avg_pct_change_at_high.
  destruct (kept_values_by_pair (closes qs)) as [kept [Hk Hv]].
  rewrite Hk. simpl. rewrite Hv. rewrite series_mean_filter. reflexivity.
Qed.

(** ** The maximum close and its band *)

Lemma filter_notna_closes (qs : list Q) : filter notna (closes qs) = closes qs.
Proof.
  unfold closes. induction qs as [|q qs IH]; simpl; [reflexivity | now rewrite IH].
Qed.

Lemma fold_cmax_closes (xs : list Q) :
  forall x, exists m, fold_left cmax (closes xs) (Fin x) = Fin m /\
                      In m (x :: xs) /\ forall q, In q (x :: xs) -> q <= m.
Proof.
  induction xs as [|y ys IH]; intros x; simpl.
  - exists x. split; [reflexivity|]. split; [now left|].
    intros q [Hq | []]. subst q. lra.
  - unfold cmax at 2. unfold cgt, ccompare.
    destruct (y ?= x) eqn:E.
    + destruct (IH x) as [m [Hm [Hin Hub]]]. exists m. split; [exact Hm|].
      apply Qeq_alt in E. split.
      * destruct Hin as [Hin | Hin]; [now left | now right; right].
      * intros q [Hq | [Hq | Hq]].
        -- apply Hub. now left.
        -- subst q. specialize (Hub x (or_introl eq_refl)). lra.
        -- apply Hub. now right.
    + destruct (IH x) as [m [Hm [Hin Hub]]]. exists m. split; [exact Hm|].
      apply Qlt_alt in E. split.
      * destruct Hin as [Hin | Hin]; [now left | now right; right].
      * intros q [Hq | [Hq | Hq]].
        -- apply Hub. now left.
        -- subst q. specialize (Hub x (or_introl eq_refl)). lra.
        -- apply Hub. now right.
    + destruct (IH y) as [m [Hm [Hin Hub]]]. exists m. split; [exact Hm|].
      apply Qgt_alt in E. split.
      * destruct Hin as [Hin | Hin]; [right; now left | now right; right].
      * intros q [Hq | [Hq | Hq]].
        -- subst q. specialize (Hub y (or_introl eq_refl)). lra.
        -- apply Hub. now left.
        -- apply Hub. now right.
Qed.

Lemma series_max_closes (qs : list Q) :
  qs <> [] ->
  exists m, series_max (closes qs) = Fin m /\ In m qs /\ forall q, In q qs -> q <= m.
Proof.
  intros Hne. unfold series_max. rewrite filter_notna_closes.
  destruct qs as [|x xs]; [congruence|]. simpl.
  apply (fold_cmax_closes xs x).
Qed.

Lemma series_max_closes_eq (qs : list Q) (m : Q) :
  In m qs -> (forall q, In q qs -> q <= m) ->
  exists m', series_max (closes qs) = Fin m' /\ m' == m.
Proof.
  intros Hin Hub.
  destruct (series_max_closes qs) as [m' [Hm [Hin' Hub']]].
  - intros E. subst qs. contradiction.
  - exists m'. split; [exact Hm|]. specialize (Hub _ Hin'). specialize (Hub' _ Hin). lra.
Qed.

Lemma in_band_positive (qs : list Q) (m c : Q) :
  series_max (closes qs) = Fin m -> 0 < m ->
  in_band (closes qs) (Fin c) = true -> 0 < c.
Proof.
  intros Hm Hpos. unfold in_band. rewrite Hm. unfold cgt. simpl.
  destruct (c ?= m + - (m * (5 # 100))) eqn:E; try discriminate.
  intros _. apply Qgt_alt in E. lra.
Qed.

Lemma in_band_at_max (qs : list Q) (m c : Q) :
  series_max (closes qs) = Fin m -> 0 < m -> c == m ->
  in_band (closes qs) (Fin c) = true.
Proof.
  intros Hm Hpos Hc. unfold in_band. rewrite Hm. unfold cgt. simpl.
  assert (E : (c ?= m + - (m * (5 # 100))) = Gt) by (apply Qgt_alt; lra).
  now rewrite E.
Qed.

Lemma pair_in_bar_pairs (l : list cell) :
  forall k a b, nth_error l k = Some a -> nth_error l (S k) = Some b ->
                In (a, b) (bar_pairs l).
Proof.
  unfold bar_pairs.
  induction l as [|x l IH]; intros k a b Ha Hb; [destruct k; discriminate|].
  destruct l as [|y l]; [destruct k; discriminate|].
  destruct k as [|k]; simpl in *.
  - left. congruence.
  - right. apply (IH k a b); assumption.
Qed.

Lemma bar_pairs_closes (qs : list Q) (p : cell * cell) :
  In p (bar_pairs (closes qs)) -> exists a b, p = (Fin a, Fin b).
Proof.
  intros Hin. destruct p as [x y]. unfold bar_pairs in Hin.
  pose proof (in_combine_l _ _ _ _ Hin) as Hx.
  pose proof (in_combine_r _ _ _ _ Hin) as Hy.
  assert (Hy' : In y (closes qs)).
  { destruct (closes qs); [contradiction | now right]. }
  unfold closes in Hx, Hy'. apply in_map_iff in Hx. apply in_map_iff in Hy'.
  destruct Hx as [a [Ha _]]. destruct Hy' as [b [Hb _]].
  exists a, b. congruence.
Qed.

Lemma change_to_positive (a b : Q) :
  0 < b -> above_minus_inf (change (Fin a, Fin b)).
Proof.
  intros Hb. unfold change. simpl.
  destruct (Qeq_bool a 0); [|exact I].
  assert (E : (b ?= 0) = Gt) by (apply Qgt_alt; lra).
  rewrite E. exact I.
Qed.

Lemma csum_above (l : list cell) :
  forall acc, above_minus_inf acc -> Forall above_minus_inf l ->
              above_minus_inf (fold_left cadd l acc).
Proof.
  induction l as [|c l IH]; intros acc Hacc Hl; simpl; [exact Hacc|].
  inversion Hl as [|? ? Hc Hl']; subst. apply IH; [|exact Hl'].
  destruct acc, c; simpl in *; tauto.
Qed.

Lemma cmean_above (l : list cell) :
  l <> [] -> Forall above_minus_inf l -> above_minus_inf (cmean l).
Proof.
  intros Hne Hl. unfold cmean.
  pose proof (csum_above l (Fin 0) I Hl) as Hs. fold (csum l) in Hs.
  assert (Hn : 0 < inject_Z (Z.of_nat (length l))).
  { apply inject_nat_pos. destruct l; [congruence | simpl; lia]. }
  destruct (csum l) as [| | | s]; try contradiction; simpl.
  - rewrite (Qeq_bool_pos _ Hn).
    assert (E : (inject_Z (Z.of_nat (length l)) ?= 0) = Gt) by (apply Qgt_alt; lra).
    rewrite E. exact I.
  - rewrite (Qeq_bool_pos _ Hn). exact I.
Qed.

Lemma above_minus_inf_notna (c : cell) : above_minus_inf c -> notna c = true.
Proof. destruct c; simpl; tauto. Qed.

Lemma nth_error_closes (qs : list Q) (j : nat) (c : Q) :
  nth_error qs j = Some c -> nth_error (closes qs) j = Some (Fin c).
Proof. intros H. unfold closes. now apply map_nth_error. Qed.

Lemma changes_into_band_above (qs : list Q) (m : Q) :
  series_max (closes qs) = Fin m -> 0 < m ->
  Forall above_minus_inf
    (map change (filter (fun p => in_band (closes qs) (snd p)) (bar_pairs (closes qs)))).
Proof.
  intros Hm Hpos. apply Forall_map. apply Forall_forall. intros p Hp.
  apply filter_In in Hp. destruct Hp as [Hin Hband].
  destruct (bar_pairs_closes qs p Hin) as [a [b E]]. subst p. simpl in Hband.
  apply change_to_positive. exact (in_band_positive qs m b Hm Hpos Hband).
Qed.

Lemma forall_filter {A : Type} (P : A -> Prop) (f : A -> bool) (l : list A) :
  Forall P l -> Forall P (filter f l).
Proof.
  intros H. apply Forall_forall. intros x Hx. apply filter_In in Hx.
  exact (proj1 (Forall_forall P l) H x (proj1 Hx)).
Qed.

(** C10. In a series of finite closes whose maximum is positive and attained
    at some bar after the first, every bar whose close attains the maximum
    passes the mask [close > max - 0.05 * max]; the set of restricted
    percentage changes is not empty and its average is defined (not NaN). *)
Theorem max_close_is_in_band (qs : list Q) (i : nat) (m : Q) :
  nth_error qs (S i) = Some m ->
  0 < m ->
  (forall q, In q qs -> q <= m) ->
  (forall j c, nth_error qs j = Some c -> c == m ->
               nth j (near_high_mask (closes qs)) false = true) /\
  exists kept avg,
    at_high_pct_changes (closes qs) = Ok kept /\ kept <> [] /\
    avg_pct_change_at_high (closes qs) = Ok avg /\ isna avg = false.
Proof.
  intros Hat Hpos Hub.
  assert (Hin : In m qs) by (eapply nth_error_In; exact Hat).
  destruct (series_max_closes_eq qs m Hin Hub) as [m' [Hm Heq]].
  assert (Hpos' : 0 < m') by lra.
  split.
  - intros j c Hj Hc. rewrite near_high_mask_in_band.
    apply nth_error_closes in Hj.
    pose proof (map_nth_error (in_band (closes qs)) j (closes qs) Hj) as E.
    rewrite (nth_error_nth _ _ false E).
    apply (in_band_at_max qs m' c Hm Hpos'). lra.
  - destruct (kept_values_by_pair (closes qs)) as [kept [Hk Hv]].
    pose proof (changes_into_band_above qs m' Hm Hpos') as Habove.
    set (X := map change (filter (fun p => in_band (closes qs) (snd p))
                                 (bar_pairs (closes qs)))) in *.
    assert (Hprev : exists p, nth_error qs i = Some p).
    { destruct (nth_error qs i) as [p|] eqn:E; [now exists p|].
      apply nth_error_None in E.
      assert (S i < length qs)%nat by (apply nth_error_Some; congruence). lia. }
    destruct Hprev as [p Hp].
    assert (HinX : In (change (Fin p, Fin m)) X).
    { unfold X. apply in_map. apply filter_In. split.
      - apply (pair_in_bar_pairs (closes qs) i); now apply nth_error_closes.
      - simpl. apply (in_band_at_max qs m' m Hm Hpos'). lra. }
    assert (Hne : filter notna X <> []).
    { intros E.
      assert (H : In (change (Fin p, Fin m)) (filter notna X)).
      { apply filter_In. split; [exact HinX|].
        apply above_minus_inf_notna, change_to_positive, Hpos. }
      rewrite E in H. contradiction. }
    exists kept, (series_mean (map snd kept)).
    split; [exact Hk|]. split.
    + intros E. subst kept. simpl in Hv. apply Hne. now symmetry.
    + split.
      * unfold avg_pct_change_at_high. rewrite Hk. reflexivity.
      * rewrite Hv. rewrite series_mean_filter. unfold series_mean.
        pose proof (cmean_above (filter notna X) Hne (forall_filter _ _ _ Habove)) as H.
        destruct (cmean (filter notna X)); simpl in *; tauto.
Qed.

Lemma max_close_is_in_band_witness :
  (forall j c, nth_error peak_in_the_middle j = Some c -> c == 120 ->
               nth j (near_high_mask (closes peak_in_the_middle)) false = true) /\
  exists kept avg,
    at_high_pct_changes (closes peak_in_the_middle) = Ok kept /\ kept <> [] /\
    avg_pct_change_at_high (closes peak_in_the_middle) = Ok avg /\ isna avg = false.
Proof.
  apply (max_close_is_in_band peak_in_the_middle 0 120).
  - reflexivity.
  - reflexivity.
  - intros q Hq. simpl in Hq.
    destruct Hq as [E | [E | [E | []]]]; subst q; discriminate.
Defined.

(** ** The projected table *)

Lemma lookup_assign_same (k : string) (v : list cell) (cols : list (string * list cell)) :
  lookup k (assign k v cols) = Some v.
Proof.
  induction cols as [|[k' c] cols IH]; simpl.
  - now rewrite String.eqb_refl.
  - destruct (String.eqb k' k) eqn:E; simpl; rewrite E; [reflexivity | exact IH].
Qed.

Lemma lookup_assign_other (k k' : string) (v : list cell) (cols : list (string * list cell)) :
  k <> k' -> lookup k' (assign k v cols) = lookup k' cols.
Proof.
  intros Hne. induction cols as [|[k0 c] cols IH]; simpl.
  - destruct (String.eqb k k') eqn:E; [|reflexivity].
    apply String.eqb_eq in E. contradiction.
  - destruct (String.eqb k0 k) eqn:E; simpl.
    + apply String.eqb_eq in E. subst k0.
      destruct (String.eqb k k') eqn:E'; [|reflexivity].
      apply String.eqb_eq in E'. contradiction.
    + destruct (String.eqb k0 k'); [reflexivity | exact IH].
Qed.

Lemma last_cons {A : Type} (xs : list A) :
  forall x d, last (x :: xs) d = last xs x.
Proof.
  induction xs as [|y ys IH]; intros x d; [reflexivity|].
  change (last (x :: y :: ys) d) with (last (y :: ys) d).
  now rewrite (IH y d), (IH y x).
Qed.

Lemma iloc_last_ok {A : Type} (l : list A) (d : A) :
  l <> [] -> iloc_last l = Ok (last l d).
Proof.
  destruct l as [|x xs]; [congruence|]. intros _.
  unfold iloc_last. now rewrite last_cons.
Qed.

Lemma last_row_ok (df : DataFrame) (features : list string) :
  well_formed df -> timestamp df <> [] ->
  (forall f, In f features -> lookup f (columns df) <> None) ->
  last_row df features = Ok (last_values_of df features).
Proof.
  intros Hwf Hne. induction features as [|f rest IH]; intros Hex; simpl.
  - destruct (timestamp df); [congruence | reflexivity].
  - unfold column, last_of.
    destruct (lookup f (columns df)) as [c|] eqn:E.
    + simpl. rewrite IH by (intros g Hg; apply Hex; now right). simpl.
      assert (Hc : c <> []).
      { assert (Hlen : length c = length (timestamp df)).
        { clear - Hwf E. unfold well_formed in Hwf.
          induction (columns df) as [|[k c'] cols IH]; [discriminate|].
          inversion Hwf as [|? ? H1 H2]; subst. simpl in E.
          destruct (String.eqb k f); [injection E as <-; exact H1 | now apply IH]. }
        intros Ec. subst c. simpl in Hlen. destruct (timestamp df); [congruence | discriminate]. }
      rewrite (iloc_last_ok c NaN Hc). reflexivity.
    + exfalso. apply (Hex f); [now left | exact E].
Qed.

Lemma lookup_last_values (df : DataFrame) (features : list string) (f : string) :
  In f features -> lookup_value f (last_values_of df features) = Ok (last_of df f).
Proof.
  induction features as [|g rest IH]; intros Hin; [contradiction|].
  simpl. destruct (String.eqb g f) eqn:E.
  - apply String.eqb_eq in E. now subst g.
  - apply IH. destruct Hin as [Hin | Hin]; [|exact Hin].
    subst g. rewrite String.eqb_refl in E. discriminate.
Qed.

Lemma length_compound (v avg : cell) (k : nat) : length (compound v avg k) = k.
Proof.
  revert v. induction k as [|k IH]; intros v; simpl; [reflexivity | now rewrite IH].
Qed.

Lemma length_future_values (v avg : cell) (days : Z) :
  (1 <= days)%Z -> length (future_values v avg days) = Z.to_nat days.
Proof.
  intros Hd. unfold future_values. simpl. rewrite length_compound. lia.
Qed.

(** Each value is the previous one times [1 + avg]. *)
Lemma compound_step (avg : cell) (k : nat) :
  forall v i, (i < k)%nat ->
    nth (S i) (v :: compound v avg k) NaN
    = cmul (nth i (v :: compound v avg k) NaN) (cadd (Fin 1) avg).
Proof.
  induction k as [|k IH]; intros v i Hi; [lia|].
  destruct i as [|i]; [reflexivity|].
  change (compound v avg (S k))
    with (cmul v (cadd (Fin 1) avg) :: compound (cmul v (cadd (Fin 1) avg)) avg k).
  change (nth (S (S i)) (v :: ?x :: ?l) NaN) with (nth (S i) (x :: l) NaN).
  change (nth (S i) (v :: ?x :: ?l) NaN) with (nth i (x :: l) NaN).
  apply IH. lia.
Qed.

Lemma compound_nan (v : cell) (k : nat) : compound v NaN k = repeat NaN k.
Proof.
  revert v. induction k as [|k IH]; intros v; [reflexivity|].
  simpl. rewrite IH. destruct v; reflexivity.
Qed.

Lemma date_range_ok (start periods : Z) :
  (0 <= periods)%Z ->
  date_range start periods
  = Ok (map (fun i => (start + Z.of_nat i * usec_per_day)%Z) (seq 0 (Z.to_nat periods))).
Proof.
  intros Hp. unfold date_range.
  destruct (Z.ltb_spec periods 0); [lia | reflexivity].
Qed.

Lemma fill_features_ok (row : list (string * cell)) (avg : cell) (days : Z) (n : nat) :
  (forall v, length (future_values v avg days) = n) -> (0 < n)%nat ->
  forall features fd,
    index_length (index fd) = n ->
    (forall f, In f features -> exists v, lookup_value f row = Ok v) ->
    exists fd',
      fill_features features row avg days fd = Ok fd' /\
      index fd' = index fd /\
      (forall f v, In f features -> lookup_value f row = Ok v ->
                   lookup f (frame_columns fd') = Some (future_values v avg days)) /\
      (forall g, ~ In g features -> lookup g (frame_columns fd') = lookup g (frame_columns fd)).
Proof.
  intros Hlen Hn. induction features as [|f rest IH]; intros fd Hix Hrow.
  - exists fd. simpl. repeat split; try reflexivity. intros f v [].
  - destruct (Hrow f (or_introl eq_refl)) as [v Hv]. simpl. rewrite Hv. simpl.
    unfold setitem. rewrite Hix, (Hlen v).
    replace (n =? 0)%nat with false by (symmetry; apply Nat.eqb_neq; lia).
    rewrite Nat.eqb_refl. simpl.
    destruct (IH {| index := index fd;
                    frame_columns := assign f (future_values v avg days) (frame_columns fd) |})
      as [fd' [Hfill [Hindex [Hset Hkeep]]]].
    + exact Hix.
    + intros g Hg. apply Hrow. now right.
    + exists fd'. split; [exact Hfill|]. split; [exact Hindex|]. split.
      * intros g w Hg Hw.
        destruct (in_dec string_dec g rest) as [Hin | Hout].
        -- now apply Hset.
        -- destruct Hg as [Hg | Hg]; [subst g | contradiction].
           rewrite (Hkeep f Hout). simpl.
           rewrite lookup_assign_same. congruence.
      * intros g Hg. rewrite Hkeep by (intros H; apply Hg; now right).
        simpl. apply lookup_assign_other. intros E. apply Hg. now left.
Qed.

(** The common tail of the two projections, for a horizon of at least a day. *)
Lemma project_features (df : DataFrame) (features : list string) (avg : cell)
  (days start : Z) :
  (1 <= days)%Z ->
  exists future,
    (ix <- date_range start days ;;
     fill_features features (last_values_of df features) avg days
                   (new_frame (DatetimeIndex ix))) = Ok future /\
    index future
    = DatetimeIndex (map (fun i => (start + Z.of_nat i * usec_per_day)%Z)
                         (seq 0 (Z.to_nat days))) /\
    forall f, In f features ->
              lookup f (frame_columns future) = Some (future_values (last_of df f) avg days).
Proof.
  intros Hd. rewrite date_range_ok by lia. simpl.
  destruct (fill_features_ok (last_values_of df features) avg days (Z.to_nat days))
    with (features := features)
         (fd := new_frame (DatetimeIndex
                  (map (fun i => (start + Z.of_nat i * usec_per_day)%Z)
                       (seq 0 (Z.to_nat days)))))
    as [fd' [Hfill [Hindex [Hset _]]]].
  - intros v. now apply length_future_values.
  - lia.
  - simpl. now rewrite length_map, length_seq.
  - intros f Hf. exists (last_of df f). now apply lookup_last_values.
  - exists fd'. split; [exact Hfill|]. split; [exact Hindex|].
    intros f Hf. apply Hset; [exact Hf | now apply lookup_last_values].
Qed.

Lemma avg_pct_change_at_high_ok (close : list cell) :
  exists avg, avg_pct_change_at_high close = Ok avg.
Proof.
  unfold avg_pct_change_at_high. rewrite at_high_pct_changes_ok. simpl. eauto.
Qed.

(** [generate_future_features] on a well-formed, non-empty table that has
    the columns it is asked for. *)
Lemma generate_future_features_ok (data : DataFrame) (features : list string)
  (days : Z) (close : list cell) (avg : cell) :
  well_formed data -> timestamp data <> [] ->
  (forall f, In f features -> lookup f (columns data) <> None) ->
  column data "close" = Ok close ->
  avg_pct_change_at_high close = Ok avg ->
  (1 <= days)%Z ->
  exists future,
    generate_future_features data features days = Ok future /\
    index future
    = DatetimeIndex (map (fun i => (last (timestamp data) 0%Z + usec_per_day
                                    + Z.of_nat i * usec_per_day)%Z)
                         (seq 0 (Z.to_nat days))) /\
    forall f, In f features ->
              lookup f (frame_columns future) = Some (future_values (last_of data f) avg days).
Proof.
  intros Hwf Hne Hex Hclose Havg Hd. unfold generate_future_features.
  rewrite (last_row_ok data features Hwf Hne Hex). cbn [bind].
  rewrite Hclose. cbn [bind]. rewrite Havg. cbn [bind].
  rewrite (iloc_last_ok (timestamp data) 0%Z Hne). cbn [bind].
  apply (project_features data features avg days _ Hd).
Qed.

Lemma get_halving_date_2024 :
  get_halving_date 2024 = Ok {| year := 2024; month := 5; day := 12 |}.
Proof. reflexivity. Qed.

Lemma generate_features_to_halving_ok (data : DataFrame) (features : list string)
  (close : list cell) (avg : cell) :
  well_formed data -> timestamp data <> [] ->
  (forall f, In f features -> lookup f (columns data) <> None) ->
  column data "close" = Ok close ->
  avg_pct_change_at_high close = Ok avg ->
  (1 <= timedelta_days (halving_2024 - last (timestamp data) 0%Z))%Z ->
  exists future,
    generate_features_to_halving data features = Ok future /\
    forall f, In f features ->
              lookup f (frame_columns future)
              = Some (future_values (last_of data f) avg
                        (timedelta_days (halving_2024 - last (timestamp data) 0%Z))).
Proof.
  intros Hwf Hne Hex Hclose Havg Hd. unfold generate_features_to_halving.
  rewrite (iloc_last_ok (timestamp data) 0%Z Hne). cbn [bind].
  rewrite (last_row_ok data features Hwf Hne Hex). cbn [bind].
  rewrite get_halving_date_2024. cbn [bind].
  rewrite Hclose. cbn [bind]. rewrite Havg. cbn [bind].
  fold halving_2024.
  destruct (project_features data features avg
              (timedelta_days (halving_2024 - last (timestamp data) 0%Z))
              (last (timestamp data) 0%Z + usec_per_day)%Z Hd)
    as [future [Hf [_ Hcols]]].
  exists future. split; [exact Hf | exact Hcols].
Qed.

Lemma avg_pct_change_into_band (close : list cell) :
  avg_pct_change_at_high close = Ok (mean_change_into_band close).
Proof.
  unfold avg_pct_change_at_high.
  destruct (kept_values_by_pair close) as [kept [Hk Hv]].
  rewrite Hk. simpl. rewrite Hv. rewrite series_mean_filter. reflexivity.
Qed.

Lemma map_fst_assign_fresh (name : string) (values : list cell)
  (cols : list (string * list cell)) :
  ~ In name (map fst cols) ->
  map fst (assign name values cols) = map fst cols ++ [name].
Proof.
  induction cols as [|[k c] rest IH]; simpl; intros H; [reflexivity|].
  destruct (String.eqb k name) eqn:E.
  - apply String.eqb_eq in E. tauto.
  - simpl. f_equal. apply IH. tauto.
Qed.

(** Distinct features become the columns of the new table, in their order. *)
Lemma fill_features_names (row : list (string * cell)) (avg : cell) (days : Z) (n : nat) :
  (forall v, length (future_values v avg days) = n) -> (0 < n)%nat ->
  forall features fd fd',
    index_length (index fd) = n ->
    NoDup features ->
    (forall f, In f features -> ~ In f (map fst (frame_columns fd))) ->
    fill_features features row avg days fd = Ok fd' ->
    map fst (frame_columns fd') = map fst (frame_columns fd) ++ features.
Proof.
  intros Hlen Hn. induction features as [|f rest IH]; intros fd fd' Hix Hnd Hfresh Hrun.
  - simpl in Hrun. injection Hrun as <-. now rewrite app_nil_r.
  - simpl in Hrun. destruct (lookup_value f row) as [v|e]; [|discriminate].
    cbn [bind] in Hrun. unfold setitem in Hrun. rewrite Hix, (Hlen v) in Hrun.
    replace (n =? 0)%nat with false in Hrun by (symmetry; apply Nat.eqb_neq; lia).
    rewrite Nat.eqb_refl in Hrun. cbn [andb bind] in Hrun.
    apply NoDup_cons_iff in Hnd. destruct Hnd as [Hf Hrest].
    apply IH in Hrun; [| exact Hix | exact Hrest |].
    + rewrite Hrun. cbn [frame_columns].
      rewrite map_fst_assign_fresh by (apply Hfresh; now left).
      now rewrite <- app_assoc.
    + intros g Hg. cbn [frame_columns].
      rewrite map_fst_assign_fresh by (apply Hfresh; now left).
      intros Hin. apply in_app_or in Hin. destruct Hin as [Hin | [E | []]].
      * apply (Hfresh g); [now right | exact Hin].
      * subst g. contradiction.
Qed.

(** C4, as the specification has it, fails: with closes 100 then 50 no
    percentage change ends within 5% of the maximum, the average is NaN, and
    the projected closes are 50, NaN, NaN, with no ratio between them. *)
Lemma falling_prices_have_no_ratio :
  mean_change_into_band (closes [100; 50]) = NaN /\
  avg_pct_change_at_high (closes [100; 50]) = Ok NaN /\
  generate_future_features falling_frame ["close"%string] 3
  = Ok {| index := DatetimeIndex
                     [(halving_2024 - 2 * usec_per_day)%Z;
                      (halving_2024 - 1 * usec_per_day)%Z;
                      halving_2024];
          frame_columns := [("close"%string, [Fin 50; NaN; NaN])] |}.
Proof.
  split; [reflexivity|]. split; [reflexivity|]. vm_compute. reflexivity.
Qed.

(** C4, amended. On a well-formed, non-empty table with finite closes whose
    average change into the band is a number [a], for distinct requested
    features that are float columns of the table ending on a number, and
    [days >= 1] with the projected dates within the range of pandas,
    [generate_future_features] returns a table of exactly [days] rows, dated
    day by day from the day after the last historical timestamp, on dates
    pandas can hold, with the requested features as its columns; every
    feature starts at its last historical value, a number, and each further
    value is the previous one times [1 + a], in floating point. *)
Theorem generate_future_features_compounds (data : DataFrame)
  (features : list string) (days : Z) (qs : list Q) (a : Q) :
  well_formed data -> timestamp data <> [] ->
  NoDup features ->
  (forall f, In f features -> lookup f (columns data) <> None) ->
  (forall f, In f features -> finite (last_of data f)) ->
  column data "close" = Ok (closes qs) ->
  mean_change_into_band (closes qs) = Fin a ->
  (1 <= days)%Z ->
  representable (last (timestamp data) 0%Z) ->
  representable (last (timestamp data) 0%Z + (days + 1) * usec_per_day) ->
  exists future,
    generate_future_features data features days = Ok future /\
    index future
    = DatetimeIndex (map (fun i => (last (timestamp data) 0%Z + usec_per_day
                                    + Z.of_nat i * usec_per_day)%Z)
                         (seq 0 (Z.to_nat days))) /\
    (forall i, (i < Z.to_nat days)%nat ->
       representable (last (timestamp data) 0%Z + usec_per_day
                      + Z.of_nat i * usec_per_day)) /\
    map fst (frame_columns future) = features /\
    forall f, In f features ->
      exists values,
        lookup f (frame_columns future) = Some values /\
        length values = Z.to_nat days /\
        nth 0 values NaN = last_of data f /\ finite (nth 0 values NaN) /\
        forall i, (S i < Z.to_nat days)%nat ->
                  nth (S i) values NaN = cmul (nth i values NaN) (cadd (Fin 1) (Fin a)).
Proof.
  intros Hwf Hne Hnd Hex Hfin Hclose Hmean Hd Hlo Hhi.
  assert (Havg : avg_pct_change_at_high (closes qs) = Ok (Fin a))
    by (now rewrite avg_pct_change_into_band, Hmean).
  destruct (generate_future_features_ok data features days (closes qs) (Fin a)
              Hwf Hne Hex Hclose Havg Hd) as [future [Hrun [Hix Hcols]]].
  exists future. split; [exact Hrun|]. split; [exact Hix|]. split; [|split].
  - intros i Hi. unfold representable, timestamp_max, usec_per_day in *. lia.
  - pose proof Hrun as Hfill. unfold generate_future_features in Hfill.
    rewrite (last_row_ok data features Hwf Hne Hex) in Hfill. cbn [bind] in Hfill.
    rewrite Hclose in Hfill. cbn [bind] in Hfill. rewrite Havg in Hfill.
    cbn [bind] in Hfill.
    rewrite (iloc_last_ok (timestamp data) 0%Z Hne) in Hfill. cbn [bind] in Hfill.
    rewrite date_range_ok in Hfill by lia. cbn [bind] in Hfill.
    apply (fill_features_names _ _ _ (Z.to_nat days)) in Hfill.
    + exact Hfill.
    + intros v. now apply length_future_values.
    + lia.
    + simpl. now rewrite length_map, length_seq.
    + exact Hnd.
    + intros f _ [].
  - intros f Hf. exists (future_values (last_of data f) (Fin a) days).
    split; [now apply Hcols|]. split; [now apply length_future_values|].
    split; [reflexivity|]. split; [exact (Hfin f Hf)|].
    intros i Hi. unfold future_values. apply compound_step. lia.
Qed.

Lemma generate_future_features_compounds_witness :
  exists future,
    generate_future_features (daily_frame peak_in_the_middle) ["close"%string] 5
    = Ok future /\
    index future
    = DatetimeIndex (map (fun i => (last (timestamp (daily_frame peak_in_the_middle)) 0%Z
                                    + usec_per_day + Z.of_nat i * usec_per_day)%Z)
                         (seq 0 (Z.to_nat 5))) /\
    (forall i, (i < Z.to_nat 5)%nat ->
       representable (last (timestamp (daily_frame peak_in_the_middle)) 0%Z
                      + usec_per_day + Z.of_nat i * usec_per_day)) /\
    map fst (frame_columns future) = ["close"%string] /\
    forall f, In f ["close"%string] ->
      exists values,
        lookup f (frame_columns future) = Some values /\
        length values = Z.to_nat 5 /\
        nth 0 values NaN = last_of (daily_frame peak_in_the_middle) f /\
        finite (nth 0 values NaN) /\
        forall i, (S i < Z.to_nat 5)%nat ->
                  nth (S i) values NaN
                  = cmul (nth i values NaN) (cadd (Fin 1) (Fin (20 # 100))).
Proof.
  apply (generate_future_features_compounds
           (daily_frame peak_in_the_middle) ["close"%string] 5 peak_in_the_middle
           (20 # 100)).
  - repeat constructor.
  - discriminate.
  - repeat constructor. simpl. tauto.
  - intros f [E | []]. subst f. discriminate.
  - intros f [E | []]. subst f. exact I.
  - reflexivity.
  - reflexivity.
  - lia.
  - vm_compute. split; discriminate.
  - vm_compute. split; discriminate.
Defined.

(** C2, as the specification has it, fails: with closes 100 then 50 no
    percentage change ends within 5% of the maximum, and both projections
    return a table (the last close, then NaN) instead of raising. *)
Lemma projection_of_falling_prices_is_nan :
  at_high_pct_changes (closes [100; 50]) = Ok [] /\
  (exists ix, generate_future_features falling_frame ["close"%string] 3
              = Ok {| index := ix;
                      frame_columns := [("close"%string, [Fin 50; NaN; NaN])] |}) /\
  (exists ix, generate_features_to_halving falling_frame ["close"%string]
              = Ok {| index := ix;
                      frame_columns := [("close"%string, [Fin 50; NaN; NaN])] |}).
Proof.
  split; [reflexivity|]. split; eexists; vm_compute; reflexivity.
Qed.

(** C2, amended. When no percentage change survives the restriction, the
    average is NaN and neither projection raises: for a horizon of at least
    one day each returns a table in which every feature holds its last
    historical value followed by NaN on every later day. *)
Theorem projections_without_change_near_high (data : DataFrame)
  (features : list string) (qs : list Q) :
  well_formed data -> timestamp data <> [] ->
  NoDup features ->
  (forall f, In f features -> lookup f (columns data) <> None) ->
  column data "close" = Ok (closes qs) ->
  at_high_pct_changes (closes qs) = Ok [] ->
  avg_pct_change_at_high (closes qs) = Ok NaN /\
  (forall days, (1 <= days)%Z ->
     exists future,
       generate_future_features data features days = Ok future /\
       forall f, In f features ->
         lookup f (frame_columns future)
         = Some (last_of data f :: repeat NaN (Z.to_nat (days - 1)))) /\
  ((1 <= timedelta_days (halving_2024 - last (timestamp data) 0%Z))%Z ->
     exists future,
       generate_features_to_halving data features = Ok future /\
       forall f, In f features ->
         lookup f (frame_columns future)
         = Some (last_of data f
                 :: repeat NaN
                      (Z.to_nat (timedelta_days (halving_2024 - last (timestamp data) 0%Z)
                                 - 1)))).
Proof.
  intros Hwf Hne _ Hex Hclose Hkept.
  assert (Havg : avg_pct_change_at_high (closes qs) = Ok NaN).
  { unfold avg_pct_change_at_high. rewrite Hkept. reflexivity. }
  split; [exact Havg|]. split.
  - intros days Hd.
    destruct (generate_future_features_ok data features days (closes qs) NaN
                Hwf Hne Hex Hclose Havg Hd) as [future [Hrun [_ Hcols]]].
    exists future. split; [exact Hrun|]. intros f Hf.
    rewrite (Hcols f Hf). unfold future_values. now rewrite compound_nan.
  - intros Hd.
    destruct (generate_features_to_halving_ok data features (closes qs) NaN
                Hwf Hne Hex Hclose Havg Hd) as [future [Hrun Hcols]].
    exists future. split; [exact Hrun|]. intros f Hf.
    rewrite (Hcols f Hf). unfold future_values. now rewrite compound_nan.
Qed.

Lemma projections_without_change_near_high_witness :
  avg_pct_change_at_high (closes [100; 50]) = Ok NaN /\
  (forall days, (1 <= days)%Z ->
     exists future,
       generate_future_features falling_frame ["close"%string] days = Ok future /\
       forall f, In f ["close"%string] ->
         lookup f (frame_columns future)
         = Some (last_of falling_frame f :: repeat NaN (Z.to_nat (days - 1)))) /\
  ((1 <= timedelta_days (halving_2024 - last (timestamp falling_frame) 0%Z))%Z ->
     exists future,
       generate_features_to_halving falling_frame ["close"%string] = Ok future /\
       forall f, In f ["close"%string] ->
         lookup f (frame_columns future)
         = Some (last_of falling_frame f
                 :: repeat NaN
                      (Z.to_nat (timedelta_days
                                   (halving_2024 - last (timestamp falling_frame) 0%Z)
                                 - 1)))).
Proof.
  apply (projections_without_change_near_high falling_frame ["close"%string] [100; 50]).
  - repeat constructor.
  - discriminate.
  - repeat constructor. simpl. tauto.
  - intros f [E | []]. subst f. discriminate.
  - reflexivity.
  - reflexivity.
Defined.

(** C6: the code at a table whose last bar (2024-05-13) is past the 2024
    halving date.  The day count is -1 and the call ends in the exception
    raised for a negative number of periods. *)
Lemma to_halving_past_reference_date_raises :
  iloc_last (timestamp frame_past_halving) = Ok (halving_2024 + usec_per_day)%Z /\
  timedelta_days (halving_2024 - (halving_2024 + usec_per_day)) = (-1)%Z /\
  generate_features_to_halving frame_past_halving ["close"%string]
  = Raise OutOfBoundsDatetime.
Proof.
  repeat split; vm_compute; reflexivity.
Qed.

(** The same for every table whose last bar is past that date. *)
Lemma generate_features_to_halving_past (data : DataFrame) (features : list string)
  (close : list cell) :
  well_formed data -> timestamp data <> [] ->
  (forall f, In f features -> lookup f (columns data) <> None) ->
  column data "close" = Ok close ->
  (halving_2024 < last (timestamp data) 0%Z)%Z ->
  generate_features_to_halving data features = Raise OutOfBoundsDatetime.
Proof.
  intros Hwf Hne Hex Hclose Hpast. unfold generate_features_to_halving.
  rewrite (iloc_last_ok (timestamp data) 0%Z Hne). cbn [bind].
  rewrite (last_row_ok data features Hwf Hne Hex). cbn [bind].
  rewrite get_halving_date_2024. cbn [bind].
  rewrite Hclose. cbn [bind].
  destruct (avg_pct_change_at_high_ok close) as [avg Havg]. rewrite Havg. cbn [bind].
  fold halving_2024. unfold date_range.
  assert (Hneg : (timedelta_days (halving_2024 - last (timestamp data) 0%Z) < 0)%Z).
  { unfold timedelta_days. apply Z.div_lt_upper_bound; unfold usec_per_day; lia. }
  apply Z.ltb_lt in Hneg. rewrite Hneg. reflexivity.
Qed.

(** On the halving date itself the day count is 0: the index is empty, the
    first feature assigned brings its own one-row index, and the call
    returns the last values on a row labelled 0. *)
Lemma to_halving_on_reference_date :
  generate_features_to_halving (frame_from (halving_2024 - usec_per_day) [100; 110])
                               ["close"%string]
  = Ok {| index := RangeIndex 1; frame_columns := [("close"%string, [Fin 110])] |}.
Proof. vm_compute. reflexivity. Qed.

(** ** The headline trajectory *)

Lemma length_extend {num : Type} (add : num -> num -> num) (v inc : num) (k : nat) :
  length (extend add v inc k) = k.
Proof.
  revert v. induction k as [|k IH]; intros v; simpl; [reflexivity | now rewrite IH].
Qed.

Lemma length_price_list {num : Type} (add : num -> num -> num) (m inc : num) :
  length (price_list add m inc) = Z.to_nat horizon.
Proof.
  unfold price_list. cbn [length]. rewrite length_extend. unfold horizon. lia.
Qed.

(** Each price is the previous one plus the increment, whatever the numbers
    and their addition are. *)
Lemma extend_step {num : Type} (add : num -> num -> num) (d inc : num) (k : nat) :
  forall v i, (i < k)%nat ->
    nth (S i) (v :: extend add v inc k) d = add (nth i (v :: extend add v inc k) d) inc.
Proof.
  induction k as [|k IH]; intros v i Hi; [lia|].
  destruct i as [|i]; [reflexivity|].
  change (extend add v inc (S k)) with (add v inc :: extend add (add v inc) inc k).
  change (nth (S (S i)) (v :: ?x :: ?l) d) with (nth (S i) (x :: l) d).
  change (nth (S i) (v :: ?x :: ?l) d) with (nth i (x :: l) d).
  apply IH. lia.
Qed.


Lemma cmean_finite_or_nan (l : list cell) :
  Forall finite l -> cmean l = NaN \/ finite (cmean l).
Proof.
  intros Hl. destruct l as [|c l']; [left; reflexivity|]. right.
  unfold cmean.
  assert (Hs : forall l acc, Forall finite l -> exists s, fold_left cadd l (Fin acc) = Fin s).
  { clear. intros l. induction l as [|c l IH]; intros acc Hl; simpl; [eauto|].
    inversion Hl as [|? ? Hc Hl']; subst.
    destruct c as [| | | q]; try contradiction. now apply IH. }
  destruct (Hs (c :: l') 0 Hl) as [s Es]. unfold csum. rewrite Es.
  assert (Hn : 0 < inject_Z (Z.of_nat (length (c :: l'))))
    by (apply inject_nat_pos; simpl; lia).
  unfold cdiv. rewrite (Qeq_bool_pos _ Hn). exact I.
Qed.

Lemma map_combine_maps {A B C D : Type} (f : A -> B) (g : A -> C) (h : B * C -> D)
  (l : list A) :
  map h (combine (map f l) (map g l)) = map (fun a => h (f a, g a)) l.
Proof.
  induction l as [|a l IH]; simpl; [reflexivity | now rewrite IH].
Qed.

Lemma map_fst_combine_eq {A B : Type} (l : list A) (l' : list B) :
  length l = length l' -> map fst (combine l l') = l.
Proof.
  revert l'. induction l as [|a l IH]; intros [|b l'] H; simpl in *;
    try reflexivity; try discriminate.
  f_equal. apply IH. lia.
Qed.

Lemma map_snd_combine_eq {A B : Type} (l : list A) (l' : list B) :
  length l = length l' -> map snd (combine l l') = l'.
Proof.
  revert l'. induction l as [|a l IH]; intros [|b l'] H; simpl in *;
    try reflexivity; try discriminate.
  f_equal. apply IH. lia.
Qed.

Lemma close_of_closes (bars : list bar) : close_of bars = closes (map b_close bars).
Proof. unfold close_of, closes. now rewrite map_map. Qed.

Lemma add_volatility_loaded (bars : list bar) :
  add_volatility (loaded bars)
  = Ok (set_column (loaded bars) "volatility" (volatility_of bars)).
Proof.
  unfold add_volatility, volatility_of. cbn [loaded columns lookup String.eqb Ascii.eqb Bool.eqb].
  now rewrite (map_combine_maps (fun b => Fin (b_high b)) (fun b => Fin (b_low b))
                 (fun p => csub (fst p) (snd p)) bars).
Qed.

(** The table the projection and the indicators start from. *)
Lemma prepared_columns (bars : list bar) :
  let d1 := add_days_since_halving
              (set_column (loaded bars) "volatility" (volatility_of bars)) in
  timestamp d1 = map b_timestamp bars /\
  column d1 "close" = Ok (close_of bars) /\
  column d1 "volatility" = Ok (volatility_of bars).
Proof.
  cbv zeta. repeat split; reflexivity.
Qed.

Lemma project_ok (btc_data : DataFrame) (close volatility : list cell) :
  timestamp btc_data <> [] ->
  column btc_data "close" = Ok close ->
  column btc_data "volatility" = Ok volatility ->
  exists p,
    project btc_data = Ok p /\
    increment p = increment_of close volatility /\
    estimated_future_prices p
    = combine (map (fun i => (last (timestamp btc_data) 0%Z + Z.of_nat i * usec_per_day)%Z)
                   (seq 0 (Z.to_nat horizon)))
              (price_list cadd (series_max close) (increment_of close volatility)).
Proof.
  intros Hne Hclose Hvol. unfold project.
  rewrite (iloc_last_ok _ 0%Z Hne). cbn [bind].
  rewrite Hclose. cbn [bind]. rewrite Hvol. cbn [bind].
  rewrite date_range_ok by (unfold horizon; lia). cbn [bind].
  unfold make_series.
  rewrite length_price_list, length_map, length_seq, Nat.eqb_refl. cbn [bind].
  set (series := combine _ _).
  assert (Hs : map snd series <> []).
  { unfold series. rewrite map_snd_combine_eq
      by (now rewrite length_price_list, length_map, length_seq).
    unfold price_list. discriminate. }
  rewrite (iloc_last_ok _ NaN Hs). cbn [bind].
  eexists. split; [reflexivity|]. split; reflexivity.
Qed.

Lemma volatility_of_finite (bars : list bar) : Forall finite (volatility_of bars).
Proof.
  unfold volatility_of. apply Forall_map. apply Forall_forall. intros b _. exact I.
Qed.

Lemma keep_rows_forall {A : Type} (P : A -> Prop) (mask : list bool) (l : list A) :
  Forall P l -> Forall P (keep_rows mask l).
Proof.
  intros H. unfold keep_rows. apply Forall_forall. intros x Hx.
  apply in_map_iff in Hx. destruct Hx as [[b y] [E Hin]]. simpl in E. subst y.
  apply filter_In in Hin. destruct Hin as [Hin _]. apply in_combine_r in Hin.
  exact (proj1 (Forall_forall P l) H x Hin).
Qed.

Lemma filter_notna_finite (l : list cell) : Forall finite l -> filter notna l = l.
Proof.
  induction 1 as [|c l Hc _ IH]; simpl; [reflexivity|].
  destruct c; try contradiction. simpl. now rewrite IH.
Qed.






(** ** The enriched table *)

Lemma enrich_loaded (fsqrt : Q -> Q) (bars : list bar) :
  enrich fsqrt (add_days_since_halving
                  (set_column (loaded bars) "volatility" (volatility_of bars)))
  = Ok (dropna_rows (enriched_table fsqrt bars)).
Proof. reflexivity. Qed.

Lemma defined_from_finite (n : nat) (col : list cell) :
  length col = n -> Forall finite col -> defined_from n 0 col.
Proof.
  intros Hlen Hfin. split; [exact Hlen|]. intros i Hi.
  assert (H : finite (nth i col NaN)) by (apply (proj1 (Forall_nth _ _) Hfin); lia).
  destruct (nth i col NaN); try contradiction. reflexivity.
Qed.

Lemma nth_shift (k : nat) (l : list cell) (i : nat) :
  (i < length l)%nat ->
  nth i (shift k l) NaN = if (i <? k)%nat then NaN else nth (i - k) l NaN.
Proof.
  intros Hi. unfold shift. rewrite nth_firstn.
  replace (i <? length l)%nat with true by (symmetry; apply Nat.ltb_lt; exact Hi).
  destruct (Nat.ltb_spec i k) as [Hlt | Hge].
  - rewrite app_nth1 by (now rewrite repeat_length). apply nth_repeat.
  - rewrite app_nth2 by (rewrite repeat_length; lia). now rewrite repeat_length.
Qed.

Lemma defined_from_shift (k : nat) (l : list cell) :
  Forall finite l -> defined_from (length l) k (shift k l).
Proof.
  intros Hfin. split; [apply length_shift|]. intros i Hi.
  rewrite nth_shift by exact Hi.
  destruct (Nat.ltb_spec i k) as [Hlt | Hge].
  - symmetry. apply Nat.leb_gt. exact Hlt.
  - assert (H : finite (nth (i - k) l NaN)) by (apply (proj1 (Forall_nth _ _) Hfin); lia).
    destruct (nth (i - k) l NaN); try contradiction.
    symmetry. apply Nat.leb_le. exact Hge.
Qed.

Lemma forallb_notna_finite (l : list cell) : Forall finite l -> forallb notna l = true.
Proof.
  intros H. apply forallb_forall. intros c Hc.
  apply (proj1 (Forall_forall _ _) H) in Hc. destruct c; simpl in *; tauto.
Qed.

(** A rolling aggregate that is defined on every full window of finite
    values is defined exactly from row [w - 1] on. *)
Lemma defined_from_rolling (w : nat) (agg : list cell -> cell) (l : list cell) :
  (0 < w)%nat -> Forall finite l ->
  (forall win, Forall finite win -> length win = w -> finite (agg win)) ->
  defined_from (length l) (w - 1) (rolling w agg l).
Proof.
  intros Hw Hfin Hagg. split; [apply length_rolling|]. intros i Hi.
  rewrite nth_rolling by exact Hi.
  pose proof (length_window w i l Hi) as Hlen.
  pose proof (window_forall finite w i l Hfin) as Hwin.
  rewrite (forallb_notna_finite _ Hwin), andb_true_r.
  destruct (Nat.eqb_spec (length (window w i l)) w) as [E | E].
  - specialize (Hagg _ Hwin E). destruct (agg (window w i l)); try contradiction.
    symmetry. apply Nat.leb_le. lia.
  - symmetry. apply Nat.leb_gt. lia.
Qed.

Lemma csum_finite (l : list cell) :
  Forall finite l -> forall acc, exists s, fold_left cadd l (Fin acc) = Fin s.
Proof.
  induction 1 as [|c l Hc _ IH]; intros acc; simpl; [eauto|].
  destruct c as [| | | q]; try contradiction. apply IH.
Qed.

Lemma cmean_finite (l : list cell) :
  l <> [] -> Forall finite l -> finite (cmean l).
Proof.
  intros Hne Hl.
  destruct (cmean_finite_or_nan l Hl) as [E | E]; [|exact E].
  exfalso. unfold cmean in E. destruct (csum_finite l Hl 0) as [s Es].
  unfold csum in E. rewrite Es in E.
  assert (Hn : 0 < inject_Z (Z.of_nat (length l))).
  { apply inject_nat_pos. destruct l; [congruence | simpl; lia]. }
  unfold cdiv in E. rewrite (Qeq_bool_pos _ Hn) in E. discriminate.
Qed.

Lemma squares_nonneg (m : cell) (l : list cell) :
  finite m -> Forall finite l ->
  Forall nonneg (map (fun x => cmul (csub x m) (csub x m)) l).
Proof.
  intros Hm Hl. apply Forall_map. revert Hl. apply Forall_impl.
  intros x Hx. destruct m as [| | | a], x as [| | | b]; try contradiction.
  simpl. generalize (b + - a). intros d.
  destruct (Qlt_le_dec d 0) as [Hd | Hd].
  - setoid_replace (d * d) with ((- d) * (- d)) by ring.
    apply Qmult_le_0_compat; lra.
  - apply Qmult_le_0_compat; exact Hd.
Qed.

Lemma cstd_finite (fsqrt : Q -> Q) (l : list cell) :
  (2 <= length l)%nat -> Forall finite l -> finite (cstd fsqrt l).
Proof.
  intros Hlen Hl. unfold cstd, cvar. cbv zeta.
  assert (Hne : l <> []) by (intros E; subst l; simpl in Hlen; lia).
  pose proof (cmean_finite l Hne Hl) as Hm.
  pose proof (csum_nonneg _ (squares_nonneg (cmean l) l Hm Hl)) as Hs.
  destruct (csum (map (fun x => cmul (csub x (cmean l)) (csub x (cmean l))) l))
    as [| | | s]; try contradiction.
  simpl in Hs.
  assert (Hn : 0 < inject_Z (Z.of_nat (length l) - 1)).
  { change 0 with (inject_Z 0). rewrite <- Zlt_Qlt. lia. }
  unfold cdiv. rewrite (Qeq_bool_pos _ Hn). unfold csqrt.
  assert (Hv : 0 <= s / inject_Z (Z.of_nat (length l) - 1))
    by (apply Qle_shift_div_l; [exact Hn | lra]).
  destruct (s / inject_Z (Z.of_nat (length l) - 1) ?= 0) eqn:E; try exact I.
  apply Qlt_alt in E. lra.
Qed.

Lemma in_range_finite (lo hi : Q) (l : list cell) :
  Forall (in_range lo hi) l -> Forall finite l.
Proof.
  apply Forall_impl. intros c Hc. destruct c; simpl in *; tauto.
Qed.

Lemma defined_from_rolling_mean (n w : nat) (col : list cell) :
  (0 < w)%nat -> length col = n -> Forall finite col ->
  defined_from n (w - 1) (rolling_mean w col).
Proof.
  intros Hw Hlen Hfin. subst n. apply defined_from_rolling; try assumption.
  intros win Hwin Hl. apply cmean_finite; [|exact Hwin].
  intros E. subst win. simpl in Hl. lia.
Qed.

Lemma defined_from_rolling_std (fsqrt : Q -> Q) (n w : nat) (col : list cell) :
  (2 <= w)%nat -> length col = n -> Forall finite col ->
  defined_from n (w - 1) (rolling_std fsqrt w col).
Proof.
  intros Hw Hlen Hfin. subst n. apply defined_from_rolling; try assumption; [lia|].
  intros win Hwin Hl. apply cstd_finite; [lia | exact Hwin].
Qed.

Lemma defined_from_lag (n k : nat) (col : list cell) :
  length col = n -> Forall finite col -> defined_from n k (shift k col).
Proof.
  intros Hlen Hfin. subst n. now apply defined_from_shift.
Qed.

Lemma forall_finite_map {A : Type} (f : A -> Q) (l : list A) :
  Forall finite (map (fun a => Fin (f a)) l).
Proof.
  apply Forall_map. apply Forall_forall. intros a _. exact I.
Qed.

Lemma enriched_defined (fsqrt : Q -> Q) (bars : list bar) :
  Forall2 (fun k kc => defined_from (length bars) k (snd kc))
          first_defined (columns (enriched_table fsqrt bars)).
Proof.
  assert (Hclose : Forall finite (close_of bars)) by apply forall_finite_map.
  assert (Hlen : length (close_of bars) = length bars) by apply length_map.
  assert (Hopen : Forall finite (map (fun b => Fin (b_open b)) bars))
    by apply forall_finite_map.
  unfold first_defined, enriched_table. cbv zeta. cbn [columns].
  repeat apply Forall2_cons; try apply Forall2_nil; cbn [snd].
  - apply defined_from_finite; [apply length_map | apply forall_finite_map].
  - apply defined_from_finite; [apply length_map | apply forall_finite_map].
  - apply defined_from_finite; [apply length_map | apply forall_finite_map].
  - apply defined_from_finite; assumption.
  - apply defined_from_finite; [apply length_map | apply forall_finite_map].
  - apply defined_from_finite; [apply length_map | apply volatility_of_finite].
  - apply defined_from_finite; [now rewrite !length_map|].
    apply (forall_finite_map (fun t => inject_Z (days_since_last_halving t))).
  - apply (defined_from_rolling_mean (length bars) 7);
      [lia | apply length_map | exact Hopen].
  - apply defined_from_finite.
    + now rewrite length_rsi_of_close.
    + rewrite close_of_closes. apply (in_range_finite 0 100), rsi_of_close_range.
  - now apply defined_from_lag.
  - now apply defined_from_lag.
  - now apply defined_from_lag.
  - now apply defined_from_lag.
  - now apply defined_from_lag.
  - apply (defined_from_rolling_mean (length bars) 7); [lia | assumption | assumption].
  - apply (defined_from_rolling_std fsqrt (length bars) 7); [lia | assumption | assumption].
  - apply (defined_from_rolling_mean (length bars) 14); [lia | assumption | assumption].
  - apply (defined_from_rolling_std fsqrt (length bars) 14); [lia | assumption | assumption].
  - apply (defined_from_rolling_mean (length bars) 30); [lia | assumption | assumption].
  - apply (defined_from_rolling_std fsqrt (length bars) 30); [lia | assumption | assumption].
Qed.

Lemma row_complete_defined (n i : nat) (ks : list nat) (cols : list (string * list cell)) :
  Forall2 (fun k kc => defined_from n k (snd kc)) ks cols ->
  (i < n)%nat ->
  row_complete cols i = forallb (fun k => (k <=? i)%nat) ks.
Proof.
  intros H Hi. unfold row_complete.
  induction H as [|k kc ks cols [_ Hk] _ IH]; simpl; [reflexivity|].
  now rewrite (Hk i Hi), IH.
Qed.

Lemma forallb_leb_max (i : nat) (ks : list nat) :
  forallb (fun k => (k <=? i)%nat) ks = (list_max ks <=? i)%nat.
Proof.
  induction ks as [|k ks IH]; simpl; [reflexivity|]. rewrite IH.
  destruct (Nat.leb_spec k i), (Nat.leb_spec (list_max ks) i),
    (Nat.leb_spec (Nat.max k (list_max ks)) i); simpl; try reflexivity; lia.
Qed.

Lemma length_filter_fst_combine {A B : Type} (f : A -> bool) (s : list A) :
  forall l : list B, length s = length l ->
    length (filter fst (combine (map f s) l)) = length (filter f s).
Proof.
  induction s as [|a s IH]; intros [|b l] H; simpl in *; try reflexivity; try discriminate.
  destruct (f a); simpl; rewrite IH by lia; reflexivity.
Qed.

Lemma count_from (k n : nat) :
  length (filter (fun i => (k <=? i)%nat) (seq 0 n)) = (n - k)%nat.
Proof.
  induction n as [|n IH]; [reflexivity|].
  rewrite seq_S, filter_app, length_app, IH. change (0 + n)%nat with n. cbn [filter].
  destruct (Nat.leb_spec k n); cbn [length]; lia.
Qed.

(** The rows left by [dropna]: all but the first [max first_defined]. *)
Lemma enriched_rows (fsqrt : Q -> Q) (bars : list bar) :
  nrows (dropna_rows (enriched_table fsqrt bars)) = (length bars - 30)%nat.
Proof.
  unfold nrows, dropna_rows. cbv zeta. cbn [timestamp].
  unfold keep_rows at 1. rewrite length_map.
  change (timestamp (enriched_table fsqrt bars)) with (map b_timestamp bars).
  rewrite length_map.
  rewrite length_filter_fst_combine by (now rewrite length_seq, length_map).
  rewrite (filter_ext_in _ (fun i => (30 <=? i)%nat)).
  - apply count_from.
  - intros i Hi. apply in_seq in Hi.
    rewrite (row_complete_defined (length bars) i first_defined)
      by (try apply enriched_defined; lia).
    apply forallb_leb_max.
Qed.

(** C7, as the specification has it, fails: of thirty bars none is left
    (the claim would leave 30 - 29 = 1), because [lagged_close_30] is
    missing on all of the first thirty rows. *)
Lemma thirty_bars_leave_no_row :
  length (rising_bars 30) = 30%nat /\
  forall fsqrt, exists d0 final,
    add_volatility (loaded (rising_bars 30)) = Ok d0 /\
    enrich fsqrt (add_days_since_halving d0) = Ok final /\
    nrows final = 0%nat.
Proof.
  split; [reflexivity|]. intros fsqrt.
  exists (set_column (loaded (rising_bars 30)) "volatility" (volatility_of (rising_bars 30))),
         (dropna_rows (enriched_table fsqrt (rising_bars 30))).
  split; [apply add_volatility_loaded|]. split; [apply enrich_loaded|].
  rewrite enriched_rows. reflexivity.
Qed.

(** C7, amended. For every input series of N bars with finite values, the
    table left after all derived columns are computed and the rows with a
    missing value dropped has exactly N - 30 rows when N > 30 and none when
    N <= 30 (the subtraction below is truncated at zero). *)
Theorem enriched_table_row_count (fsqrt : Q -> Q) (bars : list bar) :
  exists d0 final,
    add_volatility (loaded bars) = Ok d0 /\
    enrich fsqrt (add_days_since_halving d0) = Ok final /\
    nrows final = (length bars - 30)%nat.
Proof.
  exists (set_column (loaded bars) "volatility" (volatility_of bars)),
         (dropna_rows (enriched_table fsqrt bars)).
  split; [apply add_volatility_loaded|]. split; [apply enrich_loaded|].
  apply enriched_rows.
Qed.

(** * Further properties of the code *)

(** ** The halving calendar, continued *)

Lemma find_year_found (y : Z) (dates : list civil) :
  In y (map year dates) ->
  exists d, find_year y dates = Ok d /\ year d = y /\ In d dates.
Proof.
  induction dates as [|d rest IH]; intros Hin; [contradiction|].
  simpl. destruct (Z.eqb_spec (year d) y) as [E | E].
  - exists d. split; [reflexivity|]. split; [exact E | now left].
  - destruct Hin as [Hin | Hin]; [contradiction|].
    destruct (IH Hin) as [d' [H1 [H2 H3]]].
    exists d'. split; [exact H1|]. split; [exact H2 | now right].
Qed.

Lemma find_year_missing (y : Z) (dates : list civil) :
  ~ In y (map year dates) -> find_year y dates = Raise ValueError.
Proof.
  induction dates as [|d rest IH]; intros Hout; [reflexivity|].
  simpl. destruct (Z.eqb_spec (year d) y) as [E | E].
  - exfalso. apply Hout. now left.
  - apply IH. intros H. apply Hout. now right.
Qed.

(** X1. [get_halving_date(year)] returns a date of the table whose year is
    the one asked for when the table has such a date, and raises ValueError
    otherwise. *)
Theorem get_halving_date_spec (y : Z) :
  (In y (map year halving_dates) ->
   exists d, get_halving_date y = Ok d /\ year d = y /\ In d halving_dates) /\
  (~ In y (map year halving_dates) -> get_halving_date y = Raise ValueError).
Proof.
  split; [apply find_year_found | apply find_year_missing].
Qed.

Lemma latest_before (d : Z) (stamps : list Z) (p : Z) (ps : list Z) :
  filter (fun x => (x <? d)%Z) stamps = p :: ps ->
  In (latest p ps) stamps /\ (latest p ps < d)%Z.
Proof.
  intros E. destruct (latest_spec ps p) as [Hmem _].
  rewrite <- E in Hmem. apply filter_In in Hmem.
  destruct Hmem as [H1 H2]. split; [exact H1 | now apply Z.ltb_lt].
Qed.

(** X2. [days_since_last_halving] never returns a negative count, whatever
    the datetime. *)
Theorem days_since_last_halving_nonneg (d : Z) :
  (0 <= days_since_last_halving d)%Z.
Proof.
  unfold days_since_last_halving.
  destruct (filter (fun h => (h <? d)%Z) (map to_usec halving_dates)) as [|p ps] eqn:E;
    [lia|].
  destruct (latest_before d _ p ps E) as [_ Hlt].
  unfold timedelta_days. apply Z.div_pos; unfold usec_per_day; lia.
Qed.

(** X3. Between two reference dates the count is the number of whole days
    elapsed since the latest reference date strictly before the datetime: it
    is 0 during the first 24 hours, and it never decreases as the datetime
    advances within the cycle. *)
Theorem days_since_last_halving_in_cycle (h d1 d2 : Z) :
  most_recent h d1 -> most_recent h d2 -> (d1 <= d2)%Z ->
  (days_since_last_halving d1 * usec_per_day <= d1 - h
   < (days_since_last_halving d1 + 1) * usec_per_day)%Z /\
  (days_since_last_halving d1 <= days_since_last_halving d2)%Z.
Proof.
  intros H1 H2 Hle.
  rewrite (days_since_most_recent h d1 H1), (days_since_most_recent h d2 H2).
  unfold timedelta_days.
  assert (HD : (0 < usec_per_day)%Z) by (unfold usec_per_day; lia).
  split.
  - pose proof (Z.mul_div_le (d1 - h) usec_per_day HD).
    pose proof (Z.mul_succ_div_gt (d1 - h) usec_per_day HD). lia.
  - apply Z.div_le_mono; lia.
Qed.

Lemma days_since_last_halving_in_cycle_witness :
  (days_since_last_halving noon_2020_05_11 * usec_per_day
   <= noon_2020_05_11 - halving_2020
   < (days_since_last_halving noon_2020_05_11 + 1) * usec_per_day)%Z /\
  (days_since_last_halving noon_2020_05_11
   <= days_since_last_halving morning_2020_05_12)%Z.
Proof.
  assert (H : forall d, (halving_2020 < d)%Z -> (d < 1715472000000000)%Z ->
                        most_recent halving_2020 d).
  { intros d H1 H2. unfold most_recent. rewrite halving_stamps_eq.
    split; [simpl; tauto|]. split; [exact H1|].
    change halving_2020 with 1589155200000000%Z in *.
    intros h' Hin Hlt. simpl in Hin.
    destruct Hin as [E | [E | [E | [E | [E | []]]]]]; subst h'; lia. }
  apply (days_since_last_halving_in_cycle halving_2020
           noon_2020_05_11 morning_2020_05_12).
  - apply H; vm_compute; reflexivity.
  - apply H; vm_compute; reflexivity.
  - vm_compute. discriminate.
Defined.

(** ** The two projections, continued *)

Lemma last_row_missing (df : DataFrame) (features : list string) :
  (exists f, In f features /\ lookup f (columns df) = None) ->
  last_row df features = Raise KeyError.
Proof.
  induction features as [|g rest IH]; intros [f [Hin Hf]]; [contradiction|].
  simpl. unfold column.
  destruct (lookup g (columns df)) as [c|] eqn:E; [|reflexivity].
  cbn [bind]. rewrite IH; [reflexivity|].
  exists f. split; [|exact Hf].
  destruct Hin as [Hin | Hin]; [congruence | exact Hin].
Qed.

Lemma last_row_empty (df : DataFrame) (features : list string) :
  (forall f, In f features -> lookup f (columns df) <> None) ->
  timestamp df = [] ->
  last_row df features = Raise IndexError.
Proof.
  intros Hex Hts. induction features as [|g rest IH]; simpl.
  - now rewrite Hts.
  - unfold column. destruct (lookup g (columns df)) as [c|] eqn:E.
    + cbn [bind]. rewrite IH by (intros f Hf; apply Hex; now right). reflexivity.
    + exfalso. apply (Hex g); [now left | exact E].
Qed.

(** X4. [generate_future_features] raises KeyError as soon as one requested
    feature is no column of the table (neither a float column nor the
    timestamp column), whatever the rest; IndexError when the features are
    float columns but the table has no row; and KeyError when the table has
    rows and features but no close column. *)
Theorem generate_future_features_errors (data : DataFrame) (features : list string)
  (days : Z) :
  ((exists f, In f features /\ f <> "timestamp"%string /\
              lookup f (columns data) = None) ->
   generate_future_features data features days = Raise KeyError) /\
  ((forall f, In f features -> lookup f (columns data) <> None) ->
   timestamp data = [] ->
   generate_future_features data features days = Raise IndexError) /\
  ((forall f, In f features -> lookup f (columns data) <> None) ->
   well_formed data -> timestamp data <> [] ->
   lookup "close" (columns data) = None ->
   generate_future_features data features days = Raise KeyError).
Proof.
  unfold generate_future_features. repeat split.
  - intros [f [Hin [_ Hf]]].
    now rewrite (last_row_missing data features (ex_intro _ f (conj Hin Hf))).
  - intros Hex Hts. now rewrite (last_row_empty data features Hex Hts).
  - intros Hex Hwf Hne Hclose.
    rewrite (last_row_ok data features Hwf Hne Hex). cbn [bind].
    unfold column. now rewrite Hclose.
Qed.

Lemma generate_future_features_errors_witness :
  generate_future_features falling_frame ["close"%string; "rsi"%string] 90
  = Raise KeyError /\
  generate_future_features empty_frame ["close"%string] 90 = Raise IndexError /\
  generate_future_features frame_without_close ["open"%string] 90 = Raise KeyError.
Proof.
  split; [|split].
  - apply (proj1 (generate_future_features_errors
                    falling_frame ["close"%string; "rsi"%string] 90)).
    exists "rsi"%string. split; [simpl; tauto|]. split; [discriminate | reflexivity].
  - apply (proj1 (proj2 (generate_future_features_errors
                           empty_frame ["close"%string] 90))).
    + intros f [E | []]. subst f. discriminate.
    + reflexivity.
  - apply (proj2 (proj2 (generate_future_features_errors
                           frame_without_close ["open"%string] 90))).
    + intros f [E | []]. subst f. discriminate.
    + repeat constructor.
    + discriminate.
    + reflexivity.
Defined.

(** X5. [generate_features_to_halving] looks at the last timestamp first: it
    raises IndexError on a table without rows even when features are
    missing; on a table with rows it raises KeyError when a requested
    feature is no column of the table (neither a float column nor the
    timestamp column), or when the close column is missing. *)
Theorem generate_features_to_halving_errors (data : DataFrame) (features : list string) :
  (timestamp data = [] ->
   generate_features_to_halving data features = Raise IndexError) /\
  (timestamp data <> [] ->
   (exists f, In f features /\ f <> "timestamp"%string /\
              lookup f (columns data) = None) ->
   generate_features_to_halving data features = Raise KeyError) /\
  ((forall f, In f features -> lookup f (columns data) <> None) ->
   well_formed data -> timestamp data <> [] ->
   lookup "close" (columns data) = None ->
   generate_features_to_halving data features = Raise KeyError).
Proof.
  unfold generate_features_to_halving. repeat split.
  - intros Hts. now rewrite Hts.
  - intros Hne [f [Hin [_ Hf]]]. rewrite (iloc_last_ok _ 0%Z Hne). cbn [bind].
    now rewrite (last_row_missing data features (ex_intro _ f (conj Hin Hf))).
  - intros Hex Hwf Hne Hclose.
    rewrite (iloc_last_ok _ 0%Z Hne). cbn [bind].
    rewrite (last_row_ok data features Hwf Hne Hex). cbn [bind].
    rewrite get_halving_date_2024. cbn [bind].
    unfold column. now rewrite Hclose.
Qed.

Lemma generate_features_to_halving_errors_witness :
  generate_features_to_halving empty_frame ["rsi"%string] = Raise IndexError /\
  generate_features_to_halving falling_frame ["close"%string; "rsi"%string]
  = Raise KeyError /\
  generate_features_to_halving frame_without_close ["open"%string] = Raise KeyError.
Proof.
  split; [|split].
  - apply (proj1 (generate_features_to_halving_errors empty_frame ["rsi"%string])).
    reflexivity.
  - apply (proj1 (proj2 (generate_features_to_halving_errors
                           falling_frame ["close"%string; "rsi"%string]))).
    + discriminate.
    + exists "rsi"%string. split; [simpl; tauto|]. split; [discriminate | reflexivity].
  - apply (proj2 (proj2 (generate_features_to_halving_errors
                           frame_without_close ["open"%string]))).
    + intros f [E | []]. subst f. discriminate.
    + repeat constructor.
    + discriminate.
    + reflexivity.
Defined.

(** The projection to the halving is the fixed-horizon projection over the
    whole days left. *)
Lemma to_halving_unfold (data : DataFrame) (features : list string) (close : list cell) :
  well_formed data -> timestamp data <> [] ->
  (forall f, In f features -> lookup f (columns data) <> None) ->
  column data "close" = Ok close ->
  generate_features_to_halving data features
  = generate_future_features data features
      (timedelta_days (halving_2024 - last (timestamp data) 0%Z)).
Proof.
  intros Hwf Hne Hex Hclose.
  unfold generate_features_to_halving, generate_future_features.
  rewrite (iloc_last_ok (timestamp data) 0%Z Hne). cbn [bind].
  rewrite (last_row_ok data features Hwf Hne Hex). cbn [bind].
  rewrite get_halving_date_2024. cbn [bind].
  rewrite Hclose. cbn [bind].
  destruct (avg_pct_change_at_high_ok close) as [avg Havg]. rewrite Havg. cbn [bind].
  reflexivity.
Qed.

(** X6. On a well-formed, non-empty table that has the requested columns,
    [generate_features_to_halving] returns exactly what
    [generate_future_features] returns for [days] equal to the whole days
    from the last timestamp to 2024-05-12, table or exception alike. *)
Theorem to_halving_is_fixed_horizon (data : DataFrame) (features : list string)
  (close : list cell) :
  well_formed data -> timestamp data <> [] ->
  (forall f, In f features -> lookup f (columns data) <> None) ->
  column data "close" = Ok close ->
  generate_features_to_halving data features
  = generate_future_features data features
      (timedelta_days (halving_2024 - last (timestamp data) 0%Z)).
Proof. apply to_halving_unfold. Qed.

Lemma to_halving_is_fixed_horizon_witness :
  generate_features_to_halving falling_frame ["close"%string]
  = generate_future_features falling_frame ["close"%string]
      (timedelta_days (halving_2024 - last (timestamp falling_frame) 0%Z)).
Proof.
  apply (to_halving_is_fixed_horizon falling_frame ["close"%string] (closes [100; 50])).
  - repeat constructor.
  - discriminate.
  - intros f [E | []]. subst f. discriminate.
  - reflexivity.
Defined.

Lemma firstn_compound (avg : cell) (j k : nat) :
  forall v, firstn j (compound v avg (j + k)) = compound v avg j.
Proof.
  induction j as [|j IH]; intros v; [reflexivity|].
  simpl. now rewrite IH.
Qed.

Lemma firstn_future_values (v avg : cell) (m n : Z) :
  (1 <= m <= n)%Z ->
  firstn (Z.to_nat m) (future_values v avg n) = future_values v avg m.
Proof.
  intros H. unfold future_values.
  replace (Z.to_nat m) with (S (Z.to_nat (m - 1))) by lia.
  replace (Z.to_nat (n - 1)) with (Z.to_nat (m - 1) + Z.to_nat (n - m))%nat by lia.
  cbn [firstn]. now rewrite firstn_compound.
Qed.

Lemma firstn_seq_min (k : nat) :
  forall s n, firstn k (seq s n) = seq s (Nat.min k n).
Proof.
  induction k as [|k IH]; intros s n; [reflexivity|].
  destruct n as [|n]; [reflexivity|]. simpl. now rewrite IH.
Qed.

(** X7. Lengthening the horizon of [generate_future_features] does not
    change the days already projected: the table for [m] days is the first
    [m] rows (dates and values) of the table for [n >= m] days. *)
Theorem projection_is_prefix_of_longer (data : DataFrame) (features : list string)
  (close : list cell) (m n : Z) :
  well_formed data -> timestamp data <> [] ->
  (forall f, In f features -> lookup f (columns data) <> None) ->
  column data "close" = Ok close ->
  (1 <= m <= n)%Z ->
  exists short long dates_short dates_long,
    generate_future_features data features m = Ok short /\
    generate_future_features data features n = Ok long /\
    index short = DatetimeIndex dates_short /\
    index long = DatetimeIndex dates_long /\
    dates_short = firstn (Z.to_nat m) dates_long /\
    forall f, In f features ->
      exists vs vl, lookup f (frame_columns short) = Some vs /\
                    lookup f (frame_columns long) = Some vl /\
                    vs = firstn (Z.to_nat m) vl.
Proof.
  intros Hwf Hne Hex Hclose Hmn.
  destruct (avg_pct_change_at_high_ok close) as [avg Havg].
  destruct (generate_future_features_ok data features m close avg
              Hwf Hne Hex Hclose Havg) as [short [Hs [Hsi Hsc]]]; [lia|].
  destruct (generate_future_features_ok data features n close avg
              Hwf Hne Hex Hclose Havg) as [long [Hl [Hli Hlc]]]; [lia|].
  exists short, long. eexists. eexists.
  split; [exact Hs|]. split; [exact Hl|]. split; [exact Hsi|]. split; [exact Hli|].
  split.
  - rewrite firstn_map, firstn_seq_min. f_equal. f_equal. lia.
  - intros f Hf. eexists. eexists.
    split; [apply Hsc, Hf|]. split; [apply Hlc, Hf|].
    symmetry. now apply firstn_future_values.
Qed.

Lemma projection_is_prefix_of_longer_witness :
  exists short long dates_short dates_long,
    generate_future_features falling_frame ["close"%string] 2 = Ok short /\
    generate_future_features falling_frame ["close"%string] 5 = Ok long /\
    index short = DatetimeIndex dates_short /\
    index long = DatetimeIndex dates_long /\
    dates_short = firstn (Z.to_nat 2) dates_long /\
    forall f, In f ["close"%string] ->
      exists vs vl, lookup f (frame_columns short) = Some vs /\
                    lookup f (frame_columns long) = Some vl /\
                    vs = firstn (Z.to_nat 2) vl.
Proof.
  apply (projection_is_prefix_of_longer falling_frame ["close"%string]
           (closes [100; 50]) 2 5).
  - repeat constructor.
  - discriminate.
  - intros f [E | []]. subst f. discriminate.
  - reflexivity.
  - lia.
Defined.

Lemma cge_fin (x y : Q) : y <= x -> cge (Fin x) (Fin y) = true.
Proof.
  intros H. unfold cge, ccompare.
  destruct (x ?= y) eqn:E; try reflexivity.
  apply (proj2 (Qlt_alt _ _)) in E. lra.
Qed.

(** With a non-negative seed and a non-negative average every value of the
    loop is a non-negative number. *)
Lemma compound_nonneg (a : Q) (k : nat) :
  0 <= a ->
  forall v i, 0 <= v -> (i <= k)%nat ->
    exists x, nth i (Fin v :: compound (Fin v) (Fin a) k) NaN = Fin x /\ 0 <= x.
Proof.
  intros Ha. induction k as [|k IH]; intros v i Hv Hi.
  - replace i with 0%nat by lia. exists v. split; [reflexivity | exact Hv].
  - destruct i as [|i]; [exists v; split; [reflexivity | exact Hv]|].
    change (compound (Fin v) (Fin a) (S k))
      with (Fin (v * (1 + a)) :: compound (Fin (v * (1 + a))) (Fin a) k).
    change (nth (S i) (Fin v :: ?x :: ?l) NaN) with (nth i (x :: l) NaN).
    apply IH; [|lia]. apply Qmult_le_0_compat; lra.
Qed.

(** X8. When the average change is a number [a >= 0] and the distinct
    requested features are columns of the table, a feature whose last value
    is a non-negative number is projected from that value on without ever
    decreasing from one day to the next. *)
Theorem projection_never_decreases (data : DataFrame) (features : list string)
  (close : list cell) (days : Z) (f : string) (a : Q) :
  well_formed data -> timestamp data <> [] ->
  NoDup features ->
  (forall g, In g features -> lookup g (columns data) <> None) ->
  column data "close" = Ok close ->
  avg_pct_change_at_high close = Ok (Fin a) -> 0 <= a ->
  (1 <= days)%Z ->
  In f features -> nonneg (last_of data f) ->
  exists future values,
    generate_future_features data features days = Ok future /\
    lookup f (frame_columns future) = Some values /\
    nth 0 values NaN = last_of data f /\
    forall i, (S i < Z.to_nat days)%nat ->
      cge (nth (S i) values NaN) (nth i values NaN) = true.
Proof.
  intros Hwf Hne _ Hex Hclose Havg Ha Hd Hf Hv.
  destruct (generate_future_features_ok data features days close (Fin a)
              Hwf Hne Hex Hclose Havg Hd) as [future [Hrun [_ Hcols]]].
  exists future, (future_values (last_of data f) (Fin a) days).
  split; [exact Hrun|]. split; [now apply Hcols|]. split; [reflexivity|].
  intros i Hi. unfold future_values.
  destruct (last_of data f) as [| | | v]; try contradiction. simpl in Hv.
  rewrite compound_step by lia.
  destruct (compound_nonneg a (Z.to_nat (days - 1)) Ha v i Hv) as [x [Hx Hxpos]]; [lia|].
  rewrite Hx. apply cge_fin.
  assert (0 <= x * a) by (apply Qmult_le_0_compat; assumption).
  lra.
Qed.

Lemma projection_never_decreases_witness :
  exists future values,
    generate_future_features (daily_frame peak_in_the_middle) ["close"%string] 5
    = Ok future /\
    lookup "close" (frame_columns future) = Some values /\
    nth 0 values NaN = last_of (daily_frame peak_in_the_middle) "close" /\
    forall i, (S i < Z.to_nat 5)%nat ->
      cge (nth (S i) values NaN) (nth i values NaN) = true.
Proof.
  apply (projection_never_decreases (daily_frame peak_in_the_middle) ["close"%string]
           (closes peak_in_the_middle) 5 "close"%string (20 # 100)).
  - repeat constructor.
  - discriminate.
  - repeat constructor. simpl. tauto.
  - intros g [E | []]. subst g. discriminate.
  - reflexivity.
  - reflexivity.
  - vm_compute. discriminate.
  - lia.
  - simpl. tauto.
  - vm_compute. discriminate.
Defined.

(** X9. When at least one whole day is left before 2024-05-12, the table of
    [generate_features_to_halving] has one row per whole day left; its dates
    all lie after the last historical timestamp and none lies past the
    halving date. *)
Theorem to_halving_stops_at_halving (data : DataFrame) (features : list string)
  (close : list cell) :
  well_formed data -> timestamp data <> [] ->
  (forall f, In f features -> lookup f (columns data) <> None) ->
  column data "close" = Ok close ->
  (1 <= timedelta_days (halving_2024 - last (timestamp data) 0%Z))%Z ->
  exists future dates,
    generate_features_to_halving data features = Ok future /\
    index future = DatetimeIndex dates /\
    length dates
    = Z.to_nat (timedelta_days (halving_2024 - last (timestamp data) 0%Z)) /\
    forall t, In t dates ->
              (last (timestamp data) 0 < t <= halving_2024)%Z.
Proof.
  intros Hwf Hne Hex Hclose Hd.
  rewrite (to_halving_unfold data features close Hwf Hne Hex Hclose).
  destruct (avg_pct_change_at_high_ok close) as [avg Havg].
  destruct (generate_future_features_ok data features _ close avg
              Hwf Hne Hex Hclose Havg Hd) as [future [Hrun [Hix _]]].
  exists future. eexists. split; [exact Hrun|]. split; [exact Hix|].
  split; [now rewrite length_map, length_seq|].
  intros t Ht. apply in_map_iff in Ht. destruct Ht as [i [Et Hi]].
  apply in_seq in Hi. subst t.
  unfold timedelta_days in *.
  assert (HD : (0 < usec_per_day)%Z) by (unfold usec_per_day; lia).
  pose proof (Z.mul_div_le (halving_2024 - last (timestamp data) 0%Z) usec_per_day HD)
    as Hfl.
  set (n := ((halving_2024 - last (timestamp data) 0%Z) / usec_per_day)%Z) in *.
  assert (Hin : (Z.of_nat i + 1 <= n)%Z) by lia.
  nia.
Qed.

Lemma to_halving_stops_at_halving_witness :
  exists future dates,
    generate_features_to_halving falling_frame ["close"%string] = Ok future /\
    index future = DatetimeIndex dates /\
    length dates
    = Z.to_nat (timedelta_days (halving_2024 - last (timestamp falling_frame) 0%Z)) /\
    forall t, In t dates ->
              (last (timestamp falling_frame) 0 < t <= halving_2024)%Z.
Proof.
  apply (to_halving_stops_at_halving falling_frame ["close"%string] (closes [100; 50])).
  - repeat constructor.
  - discriminate.
  - intros f [E | []]. subst f. discriminate.
  - reflexivity.
  - vm_compute. discriminate.
Defined.

(** ** The relative strength index, continued *)

Lemma nth_closes (qs : list Q) (j : nat) :
  (j < length qs)%nat -> nth j (closes qs) NaN = Fin (nth j qs 0).
Proof. intros Hj. unfold closes. now apply nth_map_in. Qed.

Lemma length_closes (qs : list Q) : length (closes qs) = length qs.
Proof. apply length_map. Qed.

(** The close-to-close differences, position by position. *)
Lemma nth_diff_closes (qs : list Q) (j : nat) :
  (j < length qs)%nat ->
  nth j (diff (closes qs)) NaN
  = match j with
    | O => NaN
    | S k => Fin (nth (S k) qs 0 + - nth k qs 0)
    end.
Proof.
  intros Hj. unfold diff.
  rewrite (nth_map_in _ _ j NaN (NaN, NaN))
    by (rewrite length_combine, length_shift, length_closes; lia).
  rewrite combine_nth by (now rewrite length_shift).
  cbn [fst snd]. rewrite nth_shift by (now rewrite length_closes).
  rewrite nth_closes by exact Hj.
  destruct j as [|k]; [reflexivity|].
  cbn [Nat.ltb Nat.leb]. replace (S k - 1)%nat with k by lia.
  rewrite nth_closes by lia. reflexivity.
Qed.

Lemma nth_gain_of (delta : list cell) (j : nat) :
  (j < length delta)%nat ->
  nth j (gain_of delta) NaN
  = if cgt (nth j delta NaN) (Fin 0) then nth j delta NaN else Fin 0.
Proof.
  intros Hj. unfold gain_of.
  exact (nth_map_in (fun d => if cgt d (Fin 0) then d else Fin 0) delta j NaN NaN Hj).
Qed.

Lemma nth_loss_of (delta : list cell) (j : nat) :
  (j < length delta)%nat ->
  nth j (loss_of delta) NaN
  = if clt (nth j delta NaN) (Fin 0) then cneg (nth j delta NaN) else Fin 0.
Proof.
  intros Hj. unfold loss_of.
  exact (nth_map_in (fun d => if clt d (Fin 0) then cneg d else Fin 0) delta j NaN NaN Hj).
Qed.

(** A running sum of non-negative cells is at least its start plus any one
    of the cells. *)
Lemma csum_lower_bound (l : list cell) :
  Forall nonneg l ->
  forall acc, exists s, fold_left cadd l (Fin acc) = Fin s /\ acc <= s /\
                        forall q, In (Fin q) l -> acc + q <= s.
Proof.
  induction 1 as [|c l Hc _ IH]; intros acc.
  - exists acc. split; [reflexivity|]. split; [lra|]. intros q [].
  - destruct c as [| | | x]; try contradiction. simpl in Hc.
    destruct (IH (acc + x)) as [s [Hs [Hle Hin]]].
    exists s. split; [exact Hs|]. split; [lra|].
    intros q [E | Hq].
    + injection E as E. subst q. lra.
    + specialize (Hin q Hq). lra.
Qed.

Lemma cmean_positive (l : list cell) (q : Q) :
  Forall nonneg l -> In (Fin q) l -> 0 < q ->
  exists m, cmean l = Fin m /\ 0 < m.
Proof.
  intros Hl Hin Hq. unfold cmean, csum.
  destruct (csum_lower_bound l Hl 0) as [s [Hs [_ Hb]]]. rewrite Hs.
  specialize (Hb q Hin).
  assert (Hn : 0 < inject_Z (Z.of_nat (length l))).
  { apply inject_nat_pos. destruct l; [contradiction | simpl; lia]. }
  unfold cdiv. rewrite (Qeq_bool_pos _ Hn).
  eexists. split; [reflexivity|].
  apply Qlt_shift_div_l; [exact Hn | lra].
Qed.

(** The mean of cells that are all zero is zero, or NaN for no cell. *)
Lemma cmean_of_zeros (l : list cell) :
  Forall (fun c => c = Fin 0) l ->
  cmean l = NaN \/ exists m, cmean l = Fin m /\ m == 0.
Proof.
  intros Hl. destruct l as [|c l']; [left; reflexivity|]. right.
  assert (Hs : forall l acc, Forall (fun c => c = Fin 0) l ->
                             exists s, fold_left cadd l (Fin acc) = Fin s /\ s == acc).
  { clear. intros l. induction l as [|c l IH]; intros acc Hl; simpl.
    - exists acc. split; [reflexivity | reflexivity].
    - inversion Hl as [|? ? Hc Hl']; subst. simpl.
      destruct (IH (acc + 0) Hl') as [s [Hs Es]]. exists s. split; [exact Hs | lra]. }
  destruct (Hs (c :: l') 0 Hl) as [s [Es Ez]]. unfold cmean, csum. rewrite Es.
  assert (Hn : 0 < inject_Z (Z.of_nat (length (c :: l'))))
    by (apply inject_nat_pos; simpl; lia).
  unfold cdiv. rewrite (Qeq_bool_pos _ Hn).
  eexists. split; [reflexivity|]. rewrite Ez. field. lra.
Qed.

Lemma rolling_mean_of_zeros (w : nat) (l : list cell) (i : nat) :
  Forall (fun c => c = Fin 0) l -> (i < length l)%nat ->
  nth i (rolling_mean w l) NaN = NaN \/
  exists m, nth i (rolling_mean w l) NaN = Fin m /\ m == 0.
Proof.
  intros Hl Hi. unfold rolling_mean. rewrite nth_rolling by exact Hi.
  destruct ((length (window w i l) =? w)%nat && forallb notna (window w i l));
    [|now left].
  apply cmean_of_zeros. now apply window_forall.
Qed.

(** The last cell of a window is the cell of its bar. *)
Lemma window_last_in (w i : nat) (l : list cell) :
  (0 < w)%nat -> (i < length l)%nat -> In (nth i l NaN) (window w i l).
Proof.
  intros Hw Hi. unfold window.
  assert (E : nth i l NaN
              = nth (i - (i + 1 - w)) (skipn (i + 1 - w) (firstn (i + 1) l)) NaN).
  { rewrite nth_skipn, nth_firstn.
    replace (i + 1 - w + (i - (i + 1 - w)))%nat with i by lia.
    replace (i <? i + 1)%nat with true by (symmetry; apply Nat.ltb_lt; lia).
    reflexivity. }
  rewrite E. apply nth_In. rewrite length_skipn, length_firstn. lia.
Qed.

Lemma nth_rolling_mean_positive (w : nat) (l : list cell) (i : nat) (q : Q) :
  Forall nonneg l -> (i < length l)%nat -> (0 < w <= i + 1)%nat ->
  nth i l NaN = Fin q -> 0 < q ->
  exists m, nth i (rolling_mean w l) NaN = Fin m /\ 0 < m.
Proof.
  intros Hl Hi Hw Hq Hpos. unfold rolling_mean. rewrite nth_rolling by exact Hi.
  pose proof (length_window w i l Hi) as Hlen.
  pose proof (window_forall nonneg w i l Hl) as Hwin.
  rewrite Hlen. replace (Nat.min w (i + 1) =? w)%nat with true
    by (symmetry; apply Nat.eqb_eq; lia).
  rewrite (forallb_notna_nonneg _ Hwin). cbn [andb].
  apply (cmean_positive _ q Hwin); [|exact Hpos].
  rewrite <- Hq. apply window_last_in; lia.
Qed.

(** The value of the index from the two averages of a bar. *)
Lemma rsi_from_averages (n : nat) (close : list cell) (i : nat) (g l : Q) :
  (i < length close)%nat ->
  nth i (avg_gain n close) NaN = Fin g -> 0 <= g ->
  nth i (avg_loss n close) NaN = Fin l -> 0 <= l ->
  (l == 0 -> g == 0 -> nth i (rsi_of_close n close) NaN = Fin 50) /\
  (l == 0 -> 0 < g -> ceq (nth i (rsi_of_close n close) NaN) (Fin 100)) /\
  (0 < l -> exists x, nth i (rsi_of_close n close) NaN = Fin x /\
                      x == 100 * g / (g + l)).
Proof.
  intros Hi Hg Hgpos Hl Hlpos.
  rewrite nth_rsi_of_close by exact Hi. rewrite Hg, Hl. cbv zeta.
  repeat split.
  - intros El Eg. unfold cdiv. rewrite (proj2 (Qeq_bool_iff l 0) El).
    rewrite (proj1 (Qeq_alt g 0) Eg). reflexivity.
  - intros El Eg. unfold cdiv. rewrite (proj2 (Qeq_bool_iff l 0) El).
    assert (Hgt : (g ?= 0) = Gt) by (apply Qgt_alt; lra).
    rewrite Hgt. simpl. lra.
  - intros Hpos.
    assert (Hr : 0 <= g / l) by (apply Qle_shift_div_l; [exact Hpos | lra]).
    assert (Hq : 0 < 1 + g / l) by lra.
    assert (E1 : cdiv (Fin g) (Fin l) = Fin (g / l))
      by (unfold cdiv; now rewrite (Qeq_bool_pos _ Hpos)).
    assert (E2 : rsi_formula (Fin (g / l)) = Fin (100 + - (100 / (1 + g / l))))
      by (unfold rsi_formula, cadd, cdiv; now rewrite (Qeq_bool_pos _ Hq)).
    rewrite E1, E2. cbn [isna].
    eexists. split; [reflexivity|]. field. split; lra.
Qed.

Lemma gains_zero (qs : list Q) :
  (forall j, (S j < length qs)%nat -> nth (S j) qs 0 <= nth j qs 0) ->
  Forall (fun c => c = Fin 0) (gain_of (diff (closes qs))).
Proof.
  intros H. apply Forall_nth. intros j d Hj.
  unfold gain_of in Hj. rewrite length_map, length_diff, length_closes in Hj.
  rewrite (nth_indep _ d NaN)
    by (unfold gain_of; now rewrite length_map, length_diff, length_closes).
  rewrite nth_gain_of by (now rewrite length_diff, length_closes).
  rewrite nth_diff_closes by exact Hj.
  destruct j as [|k]; [reflexivity|].
  specialize (H k Hj). unfold cgt, ccompare.
  destruct (nth (S k) qs 0 + - nth k qs 0 ?= 0) eqn:E; try reflexivity.
  apply Qgt_alt in E. lra.
Qed.

Lemma losses_zero (qs : list Q) :
  (forall j, (S j < length qs)%nat -> nth j qs 0 <= nth (S j) qs 0) ->
  Forall (fun c => c = Fin 0) (loss_of (diff (closes qs))).
Proof.
  intros H. apply Forall_nth. intros j d Hj.
  unfold loss_of in Hj. rewrite length_map, length_diff, length_closes in Hj.
  rewrite (nth_indep _ d NaN)
    by (unfold loss_of; now rewrite length_map, length_diff, length_closes).
  rewrite nth_loss_of by (now rewrite length_diff, length_closes).
  rewrite nth_diff_closes by exact Hj.
  destruct j as [|k]; [reflexivity|].
  specialize (H k Hj). unfold clt, ccompare.
  destruct (nth (S k) qs 0 + - nth k qs 0 ?= 0) eqn:E; try reflexivity.
  apply Qlt_alt in E. lra.
Qed.

Lemma length_gain_of_diff (qs : list Q) :
  length (gain_of (diff (closes qs))) = length qs.
Proof. unfold gain_of. now rewrite length_map, length_diff, length_closes. Qed.

Lemma length_loss_of_diff (qs : list Q) :
  length (loss_of (diff (closes qs))) = length qs.
Proof. unfold loss_of. now rewrite length_map, length_diff, length_closes. Qed.

(** X11. When the closing price never changes, the value returned is 50 on
    every bar, for any window. *)
Theorem rsi_of_flat_prices (df : DataFrame) (qs : list Q) (c : Q) (n i : nat) :
  column df "close" = Ok (closes qs) ->
  (forall q, In q qs -> q == c) ->
  (i < length qs)%nat ->
  exists rsi, relative_strength_idx df n = Ok rsi /\ nth i rsi NaN = Fin 50.
Proof.
  intros Hclose Hflat Hi.
  unfold relative_strength_idx. rewrite Hclose. cbn [bind].
  eexists. split; [reflexivity|].
  assert (Hnth : forall j, (j < length qs)%nat -> nth j qs 0 == c)
    by (intros j Hj; apply Hflat, nth_In, Hj).
  assert (Hg : Forall (fun c => c = Fin 0) (gain_of (diff (closes qs)))).
  { apply gains_zero. intros j Hj. rewrite (Hnth j), (Hnth (S j)) by lia. lra. }
  assert (Hl : Forall (fun c => c = Fin 0) (loss_of (diff (closes qs)))).
  { apply losses_zero. intros j Hj. rewrite (Hnth j), (Hnth (S j)) by lia. lra. }
  rewrite nth_rsi_of_close by (now rewrite length_closes). cbv zeta.
  unfold avg_gain, avg_loss.
  destruct (rolling_mean_of_zeros n _ i Hl) as [El | [l [El Zl]]];
    [now rewrite length_loss_of_diff | |]; rewrite El.
  - destruct (nth i (rolling_mean n (gain_of (diff (closes qs)))) NaN); reflexivity.
  - destruct (rolling_mean_of_zeros n _ i Hg) as [Eg | [g [Eg Zg]]];
      [now rewrite length_gain_of_diff | |]; rewrite Eg; [reflexivity|].
    unfold cdiv. rewrite (proj2 (Qeq_bool_iff l 0) Zl).
    rewrite (proj1 (Qeq_alt g 0) Zg). reflexivity.
Qed.

Lemma rsi_of_flat_prices_witness :
  exists rsi, relative_strength_idx (daily_frame (repeat 7 20)) 14 = Ok rsi /\
              nth 15 rsi NaN = Fin 50.
Proof.
  apply (rsi_of_flat_prices (daily_frame (repeat 7 20)) (repeat 7 20) 7 14 15).
  - reflexivity.
  - intros q Hq. apply repeat_spec in Hq. subst q. reflexivity.
  - simpl. lia.
Defined.

(** X12. When every close is above the one before, the value returned is
    100 on every bar after the first whose window is complete. *)
Theorem rsi_of_rising_prices (df : DataFrame) (qs : list Q) (n i : nat) :
  column df "close" = Ok (closes qs) ->
  (forall j, (S j < length qs)%nat -> nth j qs 0 < nth (S j) qs 0) ->
  (1 <= i < length qs)%nat -> (0 < n <= i + 1)%nat ->
  exists rsi, relative_strength_idx df n = Ok rsi /\ ceq (nth i rsi NaN) (Fin 100).
Proof.
  intros Hclose Hup Hi Hn.
  unfold relative_strength_idx. rewrite Hclose. cbn [bind].
  eexists. split; [reflexivity|].
  assert (Hl : Forall (fun c => c = Fin 0) (loss_of (diff (closes qs)))).
  { apply losses_zero. intros j Hj. specialize (Hup j Hj). lra. }
  destruct i as [|k]; [lia|].
  assert (Hgi : nth (S k) (gain_of (diff (closes qs))) NaN
                = Fin (nth (S k) qs 0 + - nth k qs 0)).
  { rewrite nth_gain_of by (rewrite length_diff, length_closes; lia).
    rewrite nth_diff_closes by lia. unfold cgt, ccompare.
    assert (E : (nth (S k) qs 0 + - nth k qs 0 ?= 0) = Gt).
    { apply Qgt_alt. specialize (Hup k (proj2 Hi)). lra. }
    now rewrite E. }
  assert (Hlen : (S k < length (gain_of (diff (closes qs))))%nat)
    by (rewrite length_gain_of_diff; lia).
  assert (Hd : 0 < nth (S k) qs 0 + - nth k qs 0)
    by (specialize (Hup k (proj2 Hi)); lra).
  destruct (nth_rolling_mean_positive n (gain_of (diff (closes qs))) (S k) _
              (gain_of_nonneg _ (diff_closes qs)) Hlen Hn Hgi Hd)
    as [g [Hg Hgpos]].
  destruct (nth_rolling_mean_full n (loss_of (diff (closes qs))) (S k)) as [l [Hlv Hlpos]].
  { apply loss_of_nonneg, diff_closes. }
  { rewrite length_loss_of_diff. lia. }
  { exact Hn. }
  assert (Zl : l == 0).
  { destruct (rolling_mean_of_zeros n _ (S k) Hl) as [E | [m [E Zm]]].
    - rewrite length_loss_of_diff. lia.
    - rewrite E in Hlv. discriminate.
    - rewrite E in Hlv. injection Hlv as <-. exact Zm. }
  destruct (rsi_from_averages n (closes qs) (S k) g l) as [_ [H _]]; try assumption.
  - rewrite length_closes. lia.
  - lra.
  - now apply H.
Qed.

(** X13. When every close is below the one before, the value returned is 0
    on every bar after the first whose window is complete. *)
Theorem rsi_of_falling_prices (df : DataFrame) (qs : list Q) (n i : nat) :
  column df "close" = Ok (closes qs) ->
  (forall j, (S j < length qs)%nat -> nth (S j) qs 0 < nth j qs 0) ->
  (1 <= i < length qs)%nat -> (0 < n <= i + 1)%nat ->
  exists rsi x, relative_strength_idx df n = Ok rsi /\
                nth i rsi NaN = Fin x /\ x == 0.
Proof.
  intros Hclose Hdown Hi Hn.
  unfold relative_strength_idx. rewrite Hclose. cbn [bind].
  assert (Hg : Forall (fun c => c = Fin 0) (gain_of (diff (closes qs)))).
  { apply gains_zero. intros j Hj. specialize (Hdown j Hj). lra. }
  destruct i as [|k]; [lia|].
  assert (Hli : nth (S k) (loss_of (diff (closes qs))) NaN
                = Fin (- (nth (S k) qs 0 + - nth k qs 0))).
  { rewrite nth_loss_of by (rewrite length_diff, length_closes; lia).
    rewrite nth_diff_closes by lia. unfold clt, ccompare.
    assert (E : (nth (S k) qs 0 + - nth k qs 0 ?= 0) = Lt).
    { apply (proj1 (Qlt_alt _ _)). specialize (Hdown k (proj2 Hi)). lra. }
    now rewrite E. }
  assert (Hlen : (S k < length (loss_of (diff (closes qs))))%nat)
    by (rewrite length_loss_of_diff; lia).
  assert (Hd : 0 < - (nth (S k) qs 0 + - nth k qs 0))
    by (specialize (Hdown k (proj2 Hi)); lra).
  destruct (nth_rolling_mean_positive n (loss_of (diff (closes qs))) (S k) _
              (loss_of_nonneg _ (diff_closes qs)) Hlen Hn Hli Hd)
    as [l [Hl Hlpos]].
  destruct (nth_rolling_mean_full n (gain_of (diff (closes qs))) (S k)) as [g [Hgv Hgpos]].
  { apply gain_of_nonneg, diff_closes. }
  { rewrite length_gain_of_diff. lia. }
  { exact Hn. }
  assert (Zg : g == 0).
  { destruct (rolling_mean_of_zeros n _ (S k) Hg) as [E | [m [E Zm]]].
    - rewrite length_gain_of_diff. lia.
    - rewrite E in Hgv. discriminate.
    - rewrite E in Hgv. injection Hgv as <-. exact Zm. }
  destruct (rsi_from_averages n (closes qs) (S k) g l) as [_ [_ H]]; try assumption.
  - rewrite length_closes. lia.
  - lra.
  - destruct (H Hlpos) as [x [Hx Ex]].
    exists (rsi_of_close n (closes qs)), x.
    split; [reflexivity|]. split; [exact Hx|].
    rewrite Ex, Zg. field. lra.
Qed.

Lemma rsi_of_rising_prices_witness :
  exists rsi, relative_strength_idx (daily_frame (rising 15)) 14 = Ok rsi /\
              ceq (nth 13 rsi NaN) (Fin 100).
Proof.
  apply (rsi_of_rising_prices (daily_frame (rising 15)) (rising 15) 14 13).
  - reflexivity.
  - intros j Hj.
    repeat (destruct j as [|j]; [vm_compute; reflexivity|]).
    simpl in Hj. lia.
  - simpl. lia.
  - lia.
Defined.

Lemma rsi_of_falling_prices_witness :
  exists rsi x, relative_strength_idx (daily_frame (falling 15)) 14 = Ok rsi /\
                nth 13 rsi NaN = Fin x /\ x == 0.
Proof.
  apply (rsi_of_falling_prices (daily_frame (falling 15)) (falling 15) 14 13).
  - reflexivity.
  - intros j Hj.
    repeat (destruct j as [|j]; [vm_compute; reflexivity|]).
    simpl in Hj. lia.
  - simpl. lia.
  - lia.
Defined.

(** ** The script, continued *)

Lemma last_as_nth {A : Type} (l : list A) (d : A) :
  last l d = nth (length l - 1) l d.
Proof.
  induction l as [|x l IH]; [reflexivity|].
  destruct l as [|y l']; [reflexivity|].
  change (last (x :: y :: l') d) with (last (y :: l') d). rewrite IH.
  simpl. now rewrite Nat.sub_0_r.
Qed.

Lemma project_outputs (btc_data : DataFrame) (close volatility : list cell) :
  timestamp btc_data <> [] ->
  column btc_data "close" = Ok close ->
  column btc_data "volatility" = Ok volatility ->
  exists p,
    project btc_data = Ok p /\
    increment p = increment_of close volatility /\
    map fst (estimated_future_prices p)
    = map (fun i => (last (timestamp btc_data) 0%Z + Z.of_nat i * usec_per_day)%Z)
          (seq 0 (Z.to_nat horizon)) /\
    map snd (estimated_future_prices p)
    = price_list cadd (series_max close) (increment_of close volatility) /\
    future_dates p = future_dates_from (last (timestamp btc_data) 0%Z) /\
    last_price p
    = last (price_list cadd (series_max close) (increment_of close volatility)) NaN.
Proof.
  intros Hne Hclose Hvol. unfold project.
  rewrite (iloc_last_ok _ 0%Z Hne). cbn [bind].
  rewrite Hclose. cbn [bind]. rewrite Hvol. cbn [bind].
  rewrite date_range_ok by (unfold horizon; lia). cbn [bind].
  unfold make_series.
  rewrite length_price_list, length_map, length_seq, Nat.eqb_refl. cbn [bind].
  assert (Hlen : length (map (fun i => (last (timestamp btc_data) 0%Z
                                        + Z.of_nat i * usec_per_day)%Z)
                             (seq 0 (Z.to_nat horizon)))
                 = length (price_list cadd (series_max close)
                                      (increment_of close volatility)))
    by (now rewrite length_price_list, length_map, length_seq).
  rewrite (map_snd_combine_eq _ _ Hlen).
  assert (Hs : price_list cadd (series_max close) (increment_of close volatility) <> [])
    by (unfold price_list; discriminate).
  rewrite (iloc_last_ok _ NaN Hs). cbn [bind].
  eexists. split; [reflexivity|].
  cbn [increment estimated_future_prices future_dates last_price].
  rewrite (map_fst_combine_eq _ _ Hlen), (map_snd_combine_eq _ _ Hlen).
  repeat split; reflexivity.
Qed.

(** With a finite start and a non-negative increment no price is below
    the start. *)
Lemma extend_above_start (a : Q) (k : nat) :
  0 <= a ->
  forall v i, (i <= k)%nat ->
    exists x, nth i (Fin v :: extend cadd (Fin v) (Fin a) k) NaN = Fin x /\ v <= x.
Proof.
  intros Ha. induction k as [|k IH]; intros v i Hi.
  - replace i with 0%nat by lia. exists v. split; [reflexivity | lra].
  - destruct i as [|i]; [exists v; split; [reflexivity | lra]|].
    change (extend cadd (Fin v) (Fin a) (S k))
      with (Fin (v + a) :: extend cadd (Fin (v + a)) (Fin a) k).
    change (nth (S i) (Fin v :: ?x :: ?l) NaN) with (nth i (x :: l) NaN).
    destruct (IH (v + a) i) as [x [Hx Hle]]; [lia|].
    exists x. split; [exact Hx | lra].
Qed.

Lemma keep_rows_in {A : Type} (mask : list bool) :
  forall (l : list A) j x,
    nth_error mask j = Some true -> nth_error l j = Some x -> In x (keep_rows mask l).
Proof.
  unfold keep_rows.
  induction mask as [|b mask IH]; intros l j x Hm Hl; [destruct j; discriminate|].
  destruct l as [|y l]; [destruct j; discriminate|].
  destruct j as [|j]; simpl in *.
  - injection Hm as ->. injection Hl as ->. now left.
  - destruct b; simpl; [right|]; now apply (IH l j x).
Qed.

Lemma volatility_of_nonneg (bars : list bar) :
  (forall b, In b bars -> b_low b <= b_high b) -> Forall nonneg (volatility_of bars).
Proof.
  intros H. unfold volatility_of. apply Forall_map. apply Forall_forall.
  intros b Hb. specialize (H b Hb). simpl. lra.
Qed.

Lemma forallb_notna_of_nonneg (l : list cell) : Forall nonneg l -> filter notna l = l.
Proof.
  intros H. apply filter_notna_finite. revert H. apply Forall_impl.
  intros c Hc. destruct c; simpl in *; tauto.
Qed.

(** The band of the script is not empty when the maximum close is not
    negative, and the increment is then a finite, non-negative number. *)
Lemma increment_nonneg (bars : list bar) (m : Q) :
  series_max (close_of bars) = Fin m -> In m (map b_close bars) -> 0 <= m ->
  (forall b, In b bars -> b_low b <= b_high b) ->
  exists a, increment_of (close_of bars) (volatility_of bars) = Fin a /\ 0 <= a.
Proof.
  intros Hm Hin Hpos Hlow.
  pose proof (volatility_of_nonneg bars Hlow) as Hvol.
  pose proof (keep_rows_forall nonneg (near_ath_mask (close_of bars)) _ Hvol) as Hk.
  apply In_nth_error in Hin. destruct Hin as [j Hj].
  assert (Hjlt : (j < length bars)%nat).
  { rewrite <- (length_map b_close). apply nth_error_Some. congruence. }
  assert (Hmask : nth_error (near_ath_mask (close_of bars)) j = Some true).
  { unfold near_ath_mask. rewrite Hm.
    assert (Hc : nth_error (close_of bars) j = Some (Fin m)).
    { rewrite close_of_closes. now apply nth_error_closes. }
    rewrite (map_nth_error _ j (close_of bars) Hc). f_equal.
    unfold cge. simpl.
    destruct (m ?= m + - (m * (5 # 100))) eqn:E; try reflexivity.
    apply Qlt_alt in E. lra. }
  destruct (nth_error (volatility_of bars) j) as [x|] eqn:Ex.
  - pose proof (keep_rows_in _ _ j x Hmask Ex) as Hx.
    unfold increment_of, ath_average_volatility, series_mean.
    rewrite (forallb_notna_of_nonneg _ Hk).
    assert (Hne : keep_rows (near_ath_mask (close_of bars)) (volatility_of bars) <> []).
    { intros E. rewrite E in Hx. contradiction. }
    pose proof (cmean_nonneg _ Hne Hk) as Hmean.
    destruct (cmean _) as [| | | v]; try contradiction. simpl in Hmean.
    exists (v * (1 # 10)). split; [reflexivity | lra].
  - apply nth_error_None in Ex. unfold volatility_of in Ex.
    rewrite length_map in Ex. lia.
Qed.

(** X14. When no bar has its low above its high and some close is not
    negative, the increment is a non-negative number, the projected prices
    never decrease from one day to the next, and the last price, the one
    annotated on the chart, is not below the maximum close. *)
Theorem headline_trajectory_never_decreases (bars : list bar) :
  (forall b, In b bars -> b_low b <= b_high b) ->
  (exists b, In b bars /\ 0 <= b_close b) ->
  exists d0 p m a,
    add_volatility (loaded bars) = Ok d0 /\
    project (add_days_since_halving d0) = Ok p /\
    series_max (close_of bars) = Fin m /\
    increment p = Fin a /\ 0 <= a /\
    (forall i, (S i < 2555)%nat ->
       cge (nth (S i) (map snd (estimated_future_prices p)) NaN)
           (nth i (map snd (estimated_future_prices p)) NaN) = true) /\
    cge (last_price p) (Fin m) = true.
Proof.
  intros Hlow [b0 [Hb0 Hc0]].
  assert (Hne : bars <> []) by (intros E; subst bars; contradiction).
  destruct (prepared_columns bars) as [Hts [Hclose Hvol]].
  assert (Hts' : timestamp (add_days_since_halving
                   (set_column (loaded bars) "volatility" (volatility_of bars))) <> []).
  { rewrite Hts. destruct bars; [congruence | discriminate]. }
  destruct (project_outputs _ (close_of bars) (volatility_of bars) Hts' Hclose Hvol)
    as [p [Hp [Hinc [_ [Hprices [_ Hlast]]]]]].
  destruct (series_max_closes (map b_close bars)) as [m [Hm [Hin Hub]]].
  { destruct bars; [congruence | discriminate]. }
  rewrite <- close_of_closes in Hm.
  assert (Hmpos : 0 <= m).
  { specialize (Hub (b_close b0) (in_map b_close bars b0 Hb0)). lra. }
  destruct (increment_nonneg bars m Hm Hin Hmpos Hlow) as [a [Ha Hapos]].
  exists (set_column (loaded bars) "volatility" (volatility_of bars)), p, m, a.
  split; [apply add_volatility_loaded|]. split; [exact Hp|]. split; [exact Hm|].
  split; [now rewrite Hinc|]. split; [exact Hapos|].
  rewrite Hprices, Hlast, Hm, Ha. unfold price_list. split.
  - intros i Hi. rewrite extend_step by (unfold horizon; lia).
    destruct (extend_above_start a (Z.to_nat (horizon - 1)) Hapos m i) as [x [Hx _]];
      [unfold horizon; lia|].
    rewrite Hx. apply cge_fin. lra.
  - rewrite last_as_nth. cbn [length]. rewrite length_extend.
    destruct (extend_above_start a (Z.to_nat (horizon - 1)) Hapos m
                (S (Z.to_nat (horizon - 1)) - 1)) as [y [Hy Hle]]; [lia|].
    rewrite Hy. now apply cge_fin.
Qed.

Lemma headline_trajectory_never_decreases_witness :
  exists d0 p m a,
    add_volatility (loaded (rising_bars 3)) = Ok d0 /\
    project (add_days_since_halving d0) = Ok p /\
    series_max (close_of (rising_bars 3)) = Fin m /\
    increment p = Fin a /\ 0 <= a /\
    (forall i, (S i < 2555)%nat ->
       cge (nth (S i) (map snd (estimated_future_prices p)) NaN)
           (nth i (map snd (estimated_future_prices p)) NaN) = true) /\
    cge (last_price p) (Fin m) = true.
Proof.
  apply (headline_trajectory_never_decreases (rising_bars 3)).
  - intros b Hb. simpl in Hb.
    destruct Hb as [E | [E | [E | []]]]; subst b; vm_compute; discriminate.
  - exists (bar_at 0 1). split; [simpl; tauto | vm_compute; discriminate].
Defined.

(** X15. The dates the chart plots the trajectory against are the 2555 days
    that follow the last historical date, each one day later than the date
    the price carries in the series [estimated_future_prices], whose index
    starts on the last historical date itself. *)
Theorem plotted_dates_are_a_day_late (btc_data : DataFrame) (close volatility : list cell) :
  timestamp btc_data <> [] ->
  column btc_data "close" = Ok close ->
  column btc_data "volatility" = Ok volatility ->
  exists p,
    project btc_data = Ok p /\
    length (future_dates p) = 2555%nat /\
    length (estimated_future_prices p) = 2555%nat /\
    nth 0 (map fst (estimated_future_prices p)) 0%Z = last (timestamp btc_data) 0%Z /\
    future_dates p
    = map (fun t => (t + usec_per_day)%Z) (map fst (estimated_future_prices p)).
Proof.
  intros Hne Hclose Hvol.
  destruct (project_outputs btc_data close volatility Hne Hclose Hvol)
    as [p [Hp [_ [Hix [Hprices [Hdates _]]]]]].
  exists p. split; [exact Hp|]. rewrite Hdates, Hix. unfold future_dates_from.
  split; [now rewrite length_map, length_seq|].
  split.
  { rewrite <- (length_map snd), Hprices. apply length_price_list. }
  split.
  { change (Z.to_nat horizon) with (S 2554). cbn [seq map nth]. lia. }
  rewrite map_map. rewrite <- seq_shift, map_map.
  apply map_ext. intros i. lia.
Qed.

Lemma plotted_dates_are_a_day_late_witness :
  exists p,
    project (add_days_since_halving
               (set_column (loaded (rising_bars 3)) "volatility"
                           (volatility_of (rising_bars 3)))) = Ok p /\
    length (future_dates p) = 2555%nat /\
    length (estimated_future_prices p) = 2555%nat /\
    nth 0 (map fst (estimated_future_prices p)) 0%Z
    = last (timestamp (add_days_since_halving
                         (set_column (loaded (rising_bars 3)) "volatility"
                                     (volatility_of (rising_bars 3))))) 0%Z /\
    future_dates p
    = map (fun t => (t + usec_per_day)%Z) (map fst (estimated_future_prices p)).
Proof.
  apply (plotted_dates_are_a_day_late _ (close_of (rising_bars 3))
           (volatility_of (rising_bars 3))).
  - discriminate.
  - reflexivity.
  - reflexivity.
Defined.

Lemma keep_rows_from {A : Type} (k : nat) (l : list A) :
  forall s, keep_rows (map (fun i => (k <=? i)%nat) (seq s (length l))) l
            = skipn (k - s) l.
Proof.
  unfold keep_rows.
  induction l as [|x l IH]; intros s; [now destruct (k - s)%nat|].
  cbn [length seq map combine filter fst].
  destruct (Nat.leb_spec k s) as [Hle | Hgt].
  - cbn [map snd]. rewrite IH.
    replace (k - S s)%nat with 0%nat by lia.
    replace (k - s)%nat with 0%nat by lia. reflexivity.
  - rewrite IH. replace (k - s)%nat with (S (k - S s)) by lia. reflexivity.
Qed.

Lemma lookup_map_columns (g : list cell -> list cell) (name : string)
  (cols : list (string * list cell)) :
  lookup name (map (fun kc => (fst kc, g (snd kc))) cols)
  = option_map g (lookup name cols).
Proof.
  induction cols as [|[k c] cols IH]; [reflexivity|].
  simpl. destruct (String.eqb k name); [reflexivity | exact IH].
Qed.

Lemma lookup_forall2 {K : Type} (P : K -> list cell -> Prop) (ks : list K)
  (cols : list (string * list cell)) (name : string) (col : list cell) :
  Forall2 (fun k kc => P k (snd kc)) ks cols ->
  lookup name cols = Some col ->
  exists k, In k ks /\ P k col.
Proof.
  induction 1 as [|k [n c] ks cols Hk _ IH]; intros Hl; [discriminate|].
  simpl in Hl. destruct (String.eqb n name).
  - injection Hl as <-. exists k. split; [now left | exact Hk].
  - destruct (IH Hl) as [k' [Hin Hp]]. exists k'. split; [now right | exact Hp].
Qed.

Lemma dropna_mask_enriched (fsqrt : Q -> Q) (bars : list bar) :
  map (row_complete (columns (enriched_table fsqrt bars))) (seq 0 (length bars))
  = map (fun i => (30 <=? i)%nat) (seq 0 (length bars)).
Proof.
  apply map_ext_in. intros i Hi. apply in_seq in Hi.
  rewrite (row_complete_defined (length bars) i first_defined)
    by (try apply enriched_defined; lia).
  apply forallb_leb_max.
Qed.

(** X16. [dropna] removes exactly the first thirty rows of the enriched
    table and nothing else: the timestamps and every column of the final
    table are those computed before, from the thirty-first row on; every
    column has as many values as the table has rows, and none is missing. *)
Theorem final_table_is_tail (fsqrt : Q -> Q) (bars : list bar) :
  exists d0 final,
    add_volatility (loaded bars) = Ok d0 /\
    enrich fsqrt (add_days_since_halving d0) = Ok final /\
    timestamp final = skipn 30 (map b_timestamp bars) /\
    (forall name,
        lookup name (columns final)
        = option_map (skipn 30) (lookup name (columns (enriched_table fsqrt bars)))) /\
    (forall name col,
        lookup name (columns final) = Some col ->
        length col = nrows final /\ Forall (fun c => notna c = true) col).
Proof.
  exists (set_column (loaded bars) "volatility" (volatility_of bars)),
         (dropna_rows (enriched_table fsqrt bars)).
  split; [apply add_volatility_loaded|]. split; [apply enrich_loaded|].
  assert (Hkeep : forall (A : Type) (l : list A), length l = length bars ->
            keep_rows (map (row_complete (columns (enriched_table fsqrt bars)))
                           (seq 0 (length (timestamp (enriched_table fsqrt bars))))) l
            = skipn 30 l).
  { intros A l Hl.
    change (timestamp (enriched_table fsqrt bars)) with (map b_timestamp bars).
    rewrite length_map, dropna_mask_enriched, <- Hl.
    rewrite (keep_rows_from 30 l 0). now rewrite Nat.sub_0_r. }
  assert (Hts : timestamp (dropna_rows (enriched_table fsqrt bars))
                = skipn 30 (map b_timestamp bars)).
  { unfold dropna_rows. cbv zeta. cbn [timestamp].
    rewrite Hkeep by (change (timestamp (enriched_table fsqrt bars))
                       with (map b_timestamp bars); apply length_map).
    reflexivity. }
  assert (Hcols : forall name,
             lookup name (columns (dropna_rows (enriched_table fsqrt bars)))
             = option_map (skipn 30)
                 (lookup name (columns (enriched_table fsqrt bars)))).
  { intros name. unfold dropna_rows. cbv zeta. cbn [columns].
    rewrite lookup_map_columns.
    destruct (lookup name (columns (enriched_table fsqrt bars))) as [col|] eqn:E;
      [|reflexivity].
    destruct (lookup_forall2 _ _ _ name col (enriched_defined fsqrt bars) E)
      as [k [_ [Hlen _]]].
    cbn [option_map]. now rewrite Hkeep. }
  split; [exact Hts|]. split; [exact Hcols|].
  intros name col Hl. rewrite Hcols in Hl.
  destruct (lookup name (columns (enriched_table fsqrt bars))) as [full|] eqn:E;
    [|discriminate].
  assert (Ecol : col = skipn 30 full) by (cbn [option_map] in Hl; congruence).
  subst col. clear Hl.
  destruct (lookup_forall2 _ _ _ name full (enriched_defined fsqrt bars) E)
    as [k [Hk [Hlen Hdef]]].
  split.
  - unfold nrows. rewrite Hts, !length_skipn, length_map. rewrite Hlen. reflexivity.
  - assert (Hk30 : (k <= 30)%nat).
    { assert (H : (list_max first_defined <= 30)%nat) by (apply Nat.leb_le; reflexivity).
      pose proof (proj1 (list_max_le first_defined 30) H) as Hall.
      exact (proj1 (Forall_forall _ _) Hall k Hk). }
    apply Forall_nth. intros i d Hi. rewrite length_skipn in Hi.
    rewrite (nth_indep _ d NaN) by (rewrite length_skipn; lia).
    rewrite nth_skipn. rewrite Hdef by lia. apply Nat.leb_le. lia.
Qed.

(** What [dropna] keeps of the enriched table. *)
Lemma dropna_keeps_tail (fsqrt : Q -> Q) (bars : list bar) {A : Type} (l : list A) :
  length l = length bars ->
  keep_rows (map (row_complete (columns (enriched_table fsqrt bars)))
                 (seq 0 (length (timestamp (enriched_table fsqrt bars))))) l
  = skipn 30 l.
Proof.
  intros Hl.
  change (timestamp (enriched_table fsqrt bars)) with (map b_timestamp bars).
  rewrite length_map, dropna_mask_enriched, <- Hl.
  rewrite (keep_rows_from 30 l 0). now rewrite Nat.sub_0_r.
Qed.

Lemma final_timestamps (fsqrt : Q -> Q) (bars : list bar) :
  timestamp (dropna_rows (enriched_table fsqrt bars)) = skipn 30 (map b_timestamp bars).
Proof.
  unfold dropna_rows. cbv zeta. cbn [timestamp].
  apply dropna_keeps_tail. apply length_map.
Qed.

Lemma final_close (fsqrt : Q -> Q) (bars : list bar) :
  column (dropna_rows (enriched_table fsqrt bars)) "close" = Ok (skipn 30 (close_of bars)).
Proof.
  unfold column, dropna_rows. cbv zeta. cbn [columns].
  rewrite lookup_map_columns.
  change (lookup "close" (columns (enriched_table fsqrt bars))) with (Some (close_of bars)).
  cbn [option_map]. rewrite dropna_keeps_tail; [reflexivity|].
  unfold close_of. apply length_map.
Qed.

Lemma last_skipn {A : Type} (d : A) (k : nat) :
  forall l, (k < length l)%nat -> last (skipn k l) d = last l d.
Proof.
  induction k as [|k IH]; intros l Hl; [reflexivity|].
  destruct l as [|x l]; [simpl in Hl; lia|].
  simpl in Hl. cbn [skipn]. rewrite IH by lia.
  destruct l as [|y l]; [simpl in Hl; lia | reflexivity].
Qed.

(** The script on a loaded table with at least one bar: the projection is
    computed, then the enriched table, and the last close and the last
    timestamp are read from what [dropna] left of it. *)
Lemma run_loaded (fsqrt : Q -> Q) (bars : list bar) :
  bars <> [] ->
  exists p,
    run fsqrt (loaded bars)
    = (price <- iloc_last (skipn 30 (close_of bars)) ;;
       date <- iloc_last (skipn 30 (map b_timestamp bars)) ;;
       Ok {| projection := p;
             final_table := dropna_rows (enriched_table fsqrt bars);
             current_price := price;
             current_date := date |}).
Proof.
  intros Hne. unfold run. rewrite add_volatility_loaded. cbn [bind].
  destruct (prepared_columns bars) as [Hts [Hclose Hvol]].
  assert (Hts' : timestamp (add_days_since_halving
                   (set_column (loaded bars) "volatility" (volatility_of bars))) <> []).
  { rewrite Hts. destruct bars; [congruence | discriminate]. }
  destruct (project_ok _ (close_of bars) (volatility_of bars) Hts' Hclose Hvol)
    as [p [Hp _]].
  rewrite Hp. cbn [bind]. rewrite enrich_loaded. cbn [bind].
  rewrite final_close. cbn [bind]. rewrite final_timestamps.
  now exists p.
Qed.

(** X17. The script stops with its own ValueError when the loaded table has
    no high or no low column, whatever else it holds.  On a loaded table of
    thirty bars or fewer it stops with IndexError: with no bar at the
    last-date lookup of line 83, otherwise at line 195, where the last close
    of the table that [dropna] emptied is read.  With more than thirty bars
    it reaches the last annotation with an enriched table of N - 30 rows,
    the last close and the last timestamp of the series. *)
Theorem run_outcomes (fsqrt : Q -> Q) :
  (forall df,
      lookup "high" (columns df) = None \/ lookup "low" (columns df) = None ->
      run fsqrt df = Raise ValueError) /\
  (forall bars, (length bars <= 30)%nat ->
     run fsqrt (loaded bars) = Raise IndexError) /\
  (forall bars, (30 < length bars)%nat ->
     exists outcome,
       run fsqrt (loaded bars) = Ok outcome /\
       nrows (final_table outcome) = (length bars - 30)%nat /\
       current_price outcome = last (close_of bars) NaN /\
       current_date outcome = last (map b_timestamp bars) 0%Z).
Proof.
  split; [|split].
  - intros df H. unfold run, add_volatility.
    destruct (lookup "high" (columns df)), (lookup "low" (columns df));
      destruct H as [H | H]; try discriminate; reflexivity.
  - intros bars Hlen. destruct bars as [|b bars]; [reflexivity|].
    destruct (run_loaded fsqrt (b :: bars)) as [p Hp]; [discriminate|].
    rewrite Hp. rewrite skipn_all2 by (unfold close_of; now rewrite length_map).
    reflexivity.
  - intros bars Hlen.
    assert (Hne : bars <> []) by (intros E; subst bars; simpl in Hlen; lia).
    destruct (run_loaded fsqrt bars Hne) as [p Hp].
    assert (Hc : skipn 30 (close_of bars) <> []).
    { intros E. apply (f_equal (@length cell)) in E.
      rewrite length_skipn in E. unfold close_of in E. rewrite length_map in E.
      simpl in E. lia. }
    assert (Ht : skipn 30 (map b_timestamp bars) <> []).
    { intros E. apply (f_equal (@length Z)) in E.
      rewrite length_skipn, length_map in E. simpl in E. lia. }
    rewrite (iloc_last_ok _ NaN Hc) in Hp. cbn [bind] in Hp.
    rewrite (iloc_last_ok _ 0%Z Ht) in Hp. cbn [bind] in Hp.
    eexists. split; [exact Hp|]. cbn [final_table current_price current_date].
    split; [apply enriched_rows|]. split.
    + apply last_skipn. unfold close_of. now rewrite length_map.
    + apply last_skipn. now rewrite length_map.
Qed.

(** ** The average change near the high, continued *)

Lemma bar_pairs_positions (l : list cell) (a b : cell) :
  In (a, b) (bar_pairs l) ->
  exists k, nth_error l k = Some a /\ nth_error l (S k) = Some b.
Proof.
  unfold bar_pairs. induction l as [|x l IH]; intros Hin; [contradiction|].
  destruct l as [|y l]; [contradiction|].
  simpl in Hin. destruct Hin as [E | Hin].
  - injection E as <- <-. exists 0%nat. split; reflexivity.
  - destruct (IH Hin) as [k [H1 H2]]. exists (S k). split; assumption.
Qed.

Lemma nth_error_closes_inv (qs : list Q) (k : nat) (c : cell) :
  nth_error (closes qs) k = Some c ->
  (k < length qs)%nat /\ c = Fin (nth k qs 0).
Proof.
  intros H.
  assert (Hk : (k < length qs)%nat).
  { rewrite <- (length_closes qs). apply nth_error_Some. congruence. }
  split; [exact Hk|].
  rewrite <- (nth_closes qs k Hk). symmetry. now apply nth_error_nth.
Qed.

Lemma rising_bounded_by_later (qs : list Q) :
  (forall j, (S j < length qs)%nat -> nth j qs 0 < nth (S j) qs 0) ->
  forall d k, (k + d < length qs)%nat -> nth k qs 0 <= nth (k + d) qs 0.
Proof.
  intros Hup d. induction d as [|d IH]; intros k Hk.
  - rewrite Nat.add_0_r. lra.
  - specialize (IH k). specialize (Hup (k + d)%nat).
    replace (k + S d)%nat with (S (k + d)) in * by lia.
    assert (H1 := IH ltac:(lia)). assert (H2 := Hup Hk). lra.
Qed.

(** X18. For at least two bars of positive closes, each above the one
    before, [avg_pct_change_at_high] is a finite, positive number. *)
Theorem avg_change_of_rising_prices_is_positive (qs : list Q) :
  (2 <= length qs)%nat ->
  (forall q, In q qs -> 0 < q) ->
  (forall j, (S j < length qs)%nat -> nth j qs 0 < nth (S j) qs 0) ->
  exists a, avg_pct_change_at_high (closes qs) = Ok (Fin a) /\ 0 < a.
Proof.
  intros Hlen Hpos Hup.
  destruct (kept_values_by_pair (closes qs)) as [kept [Hk Hv]].
  set (X := map change (filter (fun p => in_band (closes qs) (snd p))
                               (bar_pairs (closes qs)))) in *.
  (* every change over a pair is a positive number *)
  assert (Hchange : forall p, In p (bar_pairs (closes qs)) ->
                      exists q, change p = Fin q /\ 0 < q).
  { intros [a b] Hin. destruct (bar_pairs_positions _ a b Hin) as [k [Ha Hb]].
    apply nth_error_closes_inv in Ha. apply nth_error_closes_inv in Hb.
    destruct Ha as [Hka ->]. destruct Hb as [Hkb ->].
    assert (H0 : 0 < nth k qs 0) by (apply Hpos, nth_In, Hka).
    specialize (Hup k Hkb).
    unfold change. cbn [fst snd]. unfold cdiv. rewrite (Qeq_bool_pos _ H0).
    eexists. split; [reflexivity|].
    assert (H1 : 1 < nth (S k) qs 0 / nth k qs 0)
      by (apply Qlt_shift_div_l; [exact H0 | lra]).
    lra. }
  assert (HX : Forall (fun c => exists q, c = Fin q /\ 0 < q) X).
  { unfold X. apply Forall_map. apply Forall_forall. intros p Hp.
    apply filter_In in Hp. apply Hchange, Hp. }
  assert (Hnn : Forall nonneg X).
  { revert HX. apply Forall_impl. intros c [q [-> Hq]]. simpl. lra. }
  (* the last pair ends at the maximum *)
  set (k := (length qs - 2)%nat).
  assert (Hmax : forall q, In q qs -> q <= nth (S k) qs 0).
  { intros q Hq. apply In_nth with (d := 0) in Hq. destruct Hq as [j [Hj <-]].
    replace (S k) with (j + (S k - j))%nat by (unfold k; lia).
    apply rising_bounded_by_later; [exact Hup | unfold k; lia]. }
  assert (Hin : In (nth (S k) qs 0) qs) by (apply nth_In; unfold k; lia).
  destruct (series_max_closes_eq qs _ Hin Hmax) as [m [Hm Em]].
  assert (Hmpos : 0 < m) by (specialize (Hpos _ Hin); lra).
  assert (HinX : In (change (Fin (nth k qs 0), Fin (nth (S k) qs 0))) X).
  { unfold X. apply in_map. apply filter_In. split.
    - apply (pair_in_bar_pairs (closes qs) k); apply nth_error_closes;
        apply nth_error_nth'; unfold k; lia.
    - cbn [snd]. apply (in_band_at_max qs m _ Hm Hmpos). lra. }
  destruct (proj1 (Forall_forall _ _) HX _ HinX) as [q [Eq Hq]].
  rewrite Eq in HinX.
  destruct (cmean_positive X q Hnn HinX Hq) as [a [Ha Hapos]].
  exists a. split; [|exact Hapos].
  unfold avg_pct_change_at_high. rewrite Hk. cbn [bind].
  rewrite Hv, series_mean_filter. unfold series_mean.
  now rewrite (forallb_notna_of_nonneg _ Hnn), Ha.
Qed.

Lemma avg_change_of_rising_prices_is_positive_witness :
  exists a, avg_pct_change_at_high (closes (rising 15)) = Ok (Fin a) /\ 0 < a.
Proof.
  apply (avg_change_of_rising_prices_is_positive (rising 15)).
  - simpl. lia.
  - intros q Hq. unfold rising in Hq. apply in_map_iff in Hq.
    destruct Hq as [i [<- Hi]]. apply in_seq in Hi.
    change 0 with (inject_Z 0). rewrite <- Zlt_Qlt. lia.
  - intros j Hj.
    repeat (destruct j as [|j]; [vm_compute; reflexivity|]).
    simpl in Hj. lia.
Defined.

Lemma get_halving_date_spec_witness :
  (exists d, get_halving_date 2024 = Ok d /\ year d = 2024%Z /\ In d halving_dates) /\
  get_halving_date 2023 = Raise ValueError.
Proof.
  split.
  - apply (proj1 (get_halving_date_spec 2024)). simpl. tauto.
  - apply (proj2 (get_halving_date_spec 2023)). simpl.
    intros [E | [E | [E | [E | [E | []]]]]]; discriminate.
Defined.

Lemma run_outcomes_witness :
  run (fun q => q) frame_without_close = Raise ValueError /\
  run (fun q => q) (loaded (rising_bars 3)) = Raise IndexError /\
  exists outcome,
    run (fun q => q) (loaded (rising_bars 31)) = Ok outcome /\
    nrows (final_table outcome) = (length (rising_bars 31) - 30)%nat /\
    current_price outcome = last (close_of (rising_bars 31)) NaN /\
    current_date outcome = last (map b_timestamp (rising_bars 31)) 0%Z.
Proof.
  split; [|split].
  - apply (proj1 (run_outcomes (fun q => q)) frame_without_close). now left.
  - apply (proj1 (proj2 (run_outcomes (fun q => q))) (rising_bars 3)). simpl. lia.
  - apply (proj2 (proj2 (run_outcomes (fun q => q))) (rising_bars 31)). simpl. lia.
Defined.
